(** * Log report generator: the reader and the two report strategies

    A shallow embedding of [main.py]: [read_logs], [AverageReport.generate],
    [UserAgentReport.generate], [get_report_strategy], [parse_args] and
    [main], together with the pieces of the Python runtime they call
    ([str.split], [str.strip], [float], [json.loads], [datetime.strptime],
    [datetime.fromisoformat], [sorted] and the [.3f] format).

    Conventions.
    - A Python [str] is a [string] of bytes, the UTF-8 encoding of the text.
      Comparing UTF-8 byte strings lexicographically orders them as Python
      orders the decoded text (by code point).
    - A Python [float] is an IEEE-754 binary64 number, a [spec_float] of the
      Standard Library with precision 53 and maximal exponent 1024, rounded
      to nearest, ties to even.
    - A Python [int] is a [Z].
    - Exceptions are values of [exn]; a computation that prints or opens
      files runs in the monad [io], which threads the list of events. *)

From Stdlib Require Import Bool List ZArith Lia Ascii String.
From Stdlib Require Import Sorted Permutation SpecFloat.
Import ListNotations.

Set Implicit Arguments.

Local Open Scope string_scope.
Local Open Scope Z_scope.

(** ** Strings *)

Module Str.

(** [s.split(sep)[0]] for a one-character separator: the part of [s]
    before the first occurrence of [sep], the whole of [s] when there is
    none. *)
Fixpoint split_head (sep : ascii) (s : string) : string :=
  match s with
  | EmptyString => EmptyString
  | String c r => if Ascii.eqb c sep then EmptyString
                  else String c (split_head sep r)
  end.

Fixpoint mem (c : ascii) (s : string) : bool :=
  match s with
  | EmptyString => false
  | String d r => Ascii.eqb d c || mem c r
  end.

(** The ASCII characters for which [str.isspace] holds: tab, line feed,
    vertical tab, form feed, carriage return, the four separators
    0x1c-0x1f and the space.  (The non-ASCII Unicode spaces are left
    out.) *)
Definition is_space (c : ascii) : bool :=
  let n := N_of_ascii c in
  ((9 <=? n) && (n <=? 13) || (28 <=? n) && (n <=? 32))%N.

Fixpoint lstrip (s : string) : string :=
  match s with
  | EmptyString => EmptyString
  | String c r => if is_space c then lstrip r else s
  end.

Fixpoint rstrip (s : string) : string :=
  match s with
  | EmptyString => EmptyString
  | String c r =>
      match rstrip r with
      | EmptyString => if is_space c then EmptyString else String c EmptyString
      | r' => String c r'
      end
  end.

(** [s.strip()] *)
Definition strip (s : string) : string := rstrip (lstrip s).

(** The lines a text file yields when iterated: each line keeps its
    terminating line feed, the last one may lack it.  With universal
    newlines, [\r\n] and a lone [\r] are read as [\n]. *)
Fixpoint universal_newlines (s : string) : string :=
  match s with
  | EmptyString => EmptyString
  | String c r =>
      if Ascii.eqb c "013" then
        match r with
        | String d r' =>
            if Ascii.eqb d "010" then String "010" (universal_newlines r')
            else String "010" (universal_newlines r)
        | EmptyString => String "010" EmptyString
        end
      else String c (universal_newlines r)
  end.

Fixpoint lines_aux (cur : string) (s : string) : list string :=
  match s with
  | EmptyString => match cur with EmptyString => [] | _ => [cur] end
  | String c r =>
      if Ascii.eqb c "010" then (cur ++ String c EmptyString) :: lines_aux EmptyString r
      else lines_aux (cur ++ String c EmptyString) r
  end.

Definition lines (s : string) : list string :=
  lines_aux EmptyString (universal_newlines s).

Definition lower (c : ascii) : ascii :=
  let n := N_of_ascii c in
  if ((65 <=? n) && (n <=? 90))%N then ascii_of_N (n + 32) else c.

Fixpoint lower_string (s : string) : string :=
  match s with
  | EmptyString => EmptyString
  | String c r => String (lower c) (lower_string r)
  end.

Definition is_digit (c : ascii) : bool :=
  let n := N_of_ascii c in ((48 <=? n) && (n <=? 57))%N.

Definition digit_val (c : ascii) : Z := Z.of_N (N_of_ascii c) - 48.

(** The decimal numeral of a non-negative integer, most significant
    digit first; [digits_fuel] bounds the number of digits. *)
Fixpoint digits_fuel (fuel : nat) (n : Z) (acc : string) : string :=
  match fuel with
  | O => acc
  | S f =>
      let acc' := String (ascii_of_N (Z.to_N (48 + n mod 10))) acc in
      if n / 10 =? 0 then acc' else digits_fuel f (n / 10) acc'
  end.

Definition of_nonneg (n : Z) : string :=
  digits_fuel (S (Z.to_nat (Z.log2 n))) n EmptyString.

(** [n] written with at least [w] digits, zero-padded on the left. *)
Fixpoint pad_left (w : nat) (s : string) : string :=
  if (w <=? String.length s)%nat then s
  else match w with
       | O => s
       | S w' => String "0" (pad_left w' s)
       end.

End Str.

(** ** Binary64 floating point *)

Module F64.

Definition prec : Z := 53.
Definition emax : Z := 1024.

Definition float := spec_float.

Definition zero : float := S754_zero false.
Definition add : float -> float -> float := SFadd prec emax.
Definition div : float -> float -> float := SFdiv prec emax.

(** The float nearest to an integer (infinite beyond the float range). *)
Definition of_int (z : Z) : float := binary_normalize prec emax z 0 false.

(** The float nearest to [m * 10 ^ e], for [m >= 0], with sign [neg]:
    correctly rounded decimal-to-binary conversion, as [float] does for
    a numeral.  For a negative [e] this is the division of the two
    integers [m] and [10 ^ -e], rounded once. *)
Definition of_decimal (neg : bool) (m e : Z) : float :=
  match m with
  | Zpos p =>
      if 0 <=? e then binary_round prec emax neg (Z.to_pos (Zpos p * 10 ^ e)) 0
      else
        let '(q, e', l) := SFdiv_core_binary prec emax (Zpos p) 0 (10 ^ (- e)) 0 in
        binary_round_aux prec emax neg q e' l
  | _ => S754_zero neg
  end.


(** [round_half_even num den]: the integer nearest to [num / den]
    ([den > 0]), ties to the even one. *)
Definition round_half_even (num den : Z) : Z :=
  let q := num / den in
  let r := num mod den in
  match 2 * r ?= den with
  | Lt => q
  | Gt => q + 1
  | Eq => if Z.even q then q else q + 1
  end.

(** The magnitude of a finite float times 1000, rounded to an integer. *)
Definition milli (m : positive) (e : Z) : Z :=
  if 0 <=? e then Zpos m * 2 ^ e * 1000
  else round_half_even (Zpos m * 1000) (2 ^ (- e)).

Definition fixed3 (neg : bool) (q : Z) : string :=
  (if neg then "-" else EmptyString) ++
  Str.of_nonneg (q / 1000) ++ "." ++ Str.pad_left 3 (Str.of_nonneg (q mod 1000)).

(** [f"{x:.3f}"]: the exact value of [x] rounded to three decimals,
    ties to even; the sign is kept also when the digits are all zero. *)
Definition format_3f (x : float) : string :=
  match x with
  | S754_nan => "nan"
  | S754_infinity s => if s then "-inf" else "inf"
  | S754_zero s => fixed3 s 0
  | S754_finite s m e => fixed3 s (milli m e)
  end.

(** *** [float(s)] for a string *)

(** [digit (["_"] digit)*] after a first digit: the value read so far,
    the number of digits read, and the rest. *)
Fixpoint digitpart_tail (cs : list ascii) (v : Z) (n : Z) : Z * Z * list ascii :=
  match cs with
  | c :: r =>
      if Str.is_digit c then digitpart_tail r (10 * v + Str.digit_val c) (n + 1)
      else if Ascii.eqb c "_" then
        match r with
        | d :: r' =>
            if Str.is_digit d then digitpart_tail r' (10 * v + Str.digit_val d) (n + 1)
            else (v, n, cs)
        | [] => (v, n, cs)
        end
      else (v, n, cs)
  | [] => (v, n, [])
  end.

(** [digitpart], continuing the value [v] read before. *)
Definition digitpart (cs : list ascii) (v : Z) : option (Z * Z * list ascii) :=
  match cs with
  | c :: r => if Str.is_digit c then Some (digitpart_tail r (10 * v + Str.digit_val c) 1)
              else None
  | [] => None
  end.

(** [number]: the digits as one integer and the number of digits after
    the point. *)
Definition number (cs : list ascii) : option (Z * Z * list ascii) :=
  match cs with
  | "."%char :: r => digitpart r 0
  | _ =>
      match digitpart cs 0 with
      | Some (v, _, "."%char :: r) =>
          match digitpart r v with
          | Some res => Some res
          | None => Some (v, 0, r)
          end
      | Some (v, _, r) => Some (v, 0, r)
      | None => None
      end
  end.

Definition exponent (cs : list ascii) : option Z :=
  match cs with
  | [] => Some 0
  | c :: r =>
      if Ascii.eqb (Str.lower c) "e" then
        let '(neg, r1) :=
          match r with
          | "-"%char :: r' => (true, r')
          | "+"%char :: r' => (false, r')
          | _ => (false, r)
          end in
        match digitpart r1 0 with
        | Some (v, _, []) => Some (if neg then - v else v)
        | _ => None
        end
      else None
  end.

(** [float(s)]: white space around the numeral is dropped; [None] stands
    for ValueError.  (Digits are the ASCII ones.) *)
Definition of_string (s : string) : option float :=
  let cs := list_ascii_of_string (Str.strip s) in
  let '(neg, r) :=
    match cs with
    | "-"%char :: r' => (true, r')
    | "+"%char :: r' => (false, r')
    | _ => (false, cs)
    end in
  let word := Str.lower_string (string_of_list_ascii r) in
  if String.eqb word "inf" || String.eqb word "infinity" then Some (S754_infinity neg)
  else if String.eqb word "nan" then Some S754_nan
  else
    match number r with
    | Some (m, nfrac, r') =>
        match exponent r' with
        | Some e => Some (of_decimal neg m (e - nfrac))
        | None => None
        end
    | None => None
    end.

End F64.

(** ** Python values, exceptions and effects *)

(** The values [json.loads] produces, which are also the cells of a report
    row.  A [dict] keeps its items in insertion order, with distinct keys. *)
#[warnings="-register-all"]
Inductive value : Type :=
| VNone
| VBool (b : bool)
| VInt (z : Z)
| VFloat (f : F64.float)
| VStr (s : string)
| VList (l : list value)
| VDict (d : list (string * value)).

Inductive exn : Type :=
| JSONDecodeError
| KeyError (key : string)
| TypeError
| ValueError
| AttributeError
| OverflowError
| ZeroDivisionError
| OSError (path : string)
| SystemExit (code : Z).

Inductive outcome (A : Type) : Type :=
| Ok (a : A)
| Raise (e : exn).
Arguments Raise {A} e.

Definition obind {A B} (m : outcome A) (f : A -> outcome B) : outcome B :=
  match m with
  | Ok a => f a
  | Raise e => Raise e
  end.

(** The checks of the command line that can fail. *)
Inductive usage_error : Type :=
| InvalidChoice (given : string)       (* argument --report: invalid choice *)
| ExpectedArgument (option_name : string)
| RequiredMissing.

(** What a run does to the outside world, in order. *)
Inductive event : Type :=
| EvOpen (path : string)               (* open(path, "r") was attempted *)
| EvPrint (text : string)              (* print(text), to standard output *)
| EvTable (rows : list (list value)) (headers : list string)
                                       (* print(tabulate(rows, headers, "grid")) *)
| EvUsage (e : usage_error).           (* argparse's usage and error, to standard error *)

(** A computation with effects: its outcome and the events it caused.
    The events of a computation that raises are those before the raise. *)
Definition io (A : Type) : Type := outcome A * list event.

Definition ret {A} (a : A) : io A := (Ok a, []).
Definition raise {A} (e : exn) : io A := (Raise e, []).
Definition lift {A} (m : outcome A) : io A := (m, []).
Definition emit (ev : event) : io unit := (Ok tt, [ev]).

Definition bind {A B} (m : io A) (f : A -> io B) : io B :=
  match m with
  | (Ok a, t) => let '(r, t') := f a in (r, (t ++ t')%list)
  | (Raise e, t) => (Raise e, t)
  end.

Declare Scope io_scope.
Delimit Scope io_scope with io.
Notation "x <- m ;; k" := (bind m (fun x => k))
  (at level 61, m at next level, right associativity) : io_scope.
Notation "m ;;; k" := (bind m (fun _ => k))
  (at level 61, right associativity) : io_scope.
Local Open Scope io_scope.

(** [for x in xs: s = body(s, x)], the loop's variables threaded as [s]. *)
Fixpoint for_each {X S} (xs : list X) (body : S -> X -> io S) (s : S) : io S :=
  match xs with
  | [] => ret s
  | x :: xs' => s' <- body s x ;; for_each xs' body s'
  end.

(** [try: body except json.JSONDecodeError: handler].  Only that exception
    class is handled; every other one leaves the statement. *)
Definition try_except_JSONDecodeError {A} (body : io A) (handler : io A) : io A :=
  match body with
  | (Raise JSONDecodeError, t) => let '(r, t') := handler in (r, (t ++ t')%list)
  | r => r
  end.

(** *** Operations on values *)

Fixpoint dict_get (k : string) (d : list (string * value)) : option value :=
  match d with
  | [] => None
  | (k', v) :: d' => if String.eqb k' k then Some v else dict_get k d'
  end.

(** [d[k] = v]: a present key keeps its place, a new one goes last. *)
Fixpoint dict_set (k : string) (v : value) (d : list (string * value))
  : list (string * value) :=
  match d with
  | [] => [(k, v)]
  | (k', v') :: d' => if String.eqb k' k then (k', v) :: d'
                      else (k', v') :: dict_set k v d'
  end.

(** [x[key]] for a string key. *)
Definition subscript (x : value) (key : string) : outcome value :=
  match x with
  | VDict d => match dict_get key d with
               | Some v => Ok v
               | None => Raise (KeyError key)
               end
  | _ => Raise TypeError
  end.

(** [x.get(key, default)] *)
Definition get_default (x : value) (key : string) (default : value) : outcome value :=
  match x with
  | VDict d => match dict_get key d with
               | Some v => Ok v
               | None => Ok default
               end
  | _ => Raise AttributeError
  end.

(** [float(x)] *)
Definition py_float (x : value) : outcome F64.float :=
  match x with
  | VFloat f => Ok f
  | VInt z => match F64.of_int z with
              | S754_infinity _ => Raise OverflowError
              | f => Ok f
              end
  | VBool b => Ok (F64.of_int (if b then 1 else 0))
  | VStr s => match F64.of_string s with
              | Some f => Ok f
              | None => Raise ValueError
              end
  | VNone | VList _ | VDict _ => Raise TypeError
  end.

(** [x / n] for a float [x] and an int [n].  (Converting an int beyond
    the float range raises OverflowError in CPython; the only divisor
    here is a count of list elements, far below that range, and the
    conversion is taken as total.) *)
Definition truediv_int (x : F64.float) (n : Z) : outcome F64.float :=
  if n =? 0 then Raise ZeroDivisionError
  else Ok (F64.div x (F64.of_int n)).

(** ** [json.loads] *)

Module Json.

Definition quote : ascii := "034".

Definition is_ws (c : ascii) : bool :=
  Ascii.eqb c " " || Ascii.eqb c "009" || Ascii.eqb c "010" || Ascii.eqb c "013".

Fixpoint skip_ws (cs : list ascii) : list ascii :=
  match cs with
  | c :: r => if is_ws c then skip_ws r else cs
  | [] => []
  end.

Definition hex_val (c : ascii) : option Z :=
  let n := Z.of_N (N_of_ascii c) in
  if (48 <=? n) && (n <=? 57) then Some (n - 48)
  else if (65 <=? n) && (n <=? 70) then Some (n - 55)
  else if (97 <=? n) && (n <=? 102) then Some (n - 87)
  else None.

Definition hex4 (a b c d : ascii) : option Z :=
  match hex_val a, hex_val b, hex_val c, hex_val d with
  | Some x, Some y, Some z, Some w => Some (((x * 16 + y) * 16 + z) * 16 + w)
  | _, _, _, _ => None
  end.

Definition byte (n : Z) : ascii := ascii_of_N (Z.to_N n).

(** The UTF-8 bytes of a code point, last byte first (a lone surrogate
    is written as any other three-byte code point). *)
Definition utf8_rev (u : Z) : list ascii :=
  if u <? 128 then [byte u]
  else if u <? 2048 then [byte (128 + u mod 64); byte (192 + u / 64)]
  else if u <? 65536 then
    [byte (128 + u mod 64); byte (128 + (u / 64) mod 64); byte (224 + u / 4096)]
  else
    [byte (128 + u mod 64); byte (128 + (u / 64) mod 64);
     byte (128 + (u / 4096) mod 64); byte (240 + u / 262144)].

Definition simple_escape (c : ascii) : option ascii :=
  if Ascii.eqb c quote then Some quote
  else if Ascii.eqb c "\" then Some "\"%char
  else if Ascii.eqb c "/" then Some "/"%char
  else if Ascii.eqb c "b" then Some "008"%char
  else if Ascii.eqb c "f" then Some "012"%char
  else if Ascii.eqb c "n" then Some "010"%char
  else if Ascii.eqb c "r" then Some "013"%char
  else if Ascii.eqb c "t" then Some "009"%char
  else None.

(** The low half of a surrogate pair written [\uXXXX] at the head of
    the input. *)
Definition low_surrogate (cs : list ascii) : option Z :=
  match cs with
  | b :: u :: k1 :: k2 :: k3 :: k4 :: _ =>
      if Ascii.eqb b "\" && Ascii.eqb u "u" then
        match hex4 k1 k2 k3 k4 with
        | Some lo => if (56320 <=? lo) && (lo <=? 57343) then Some lo else None
        | None => None
        end
      else None
  | _ => None
  end.

(** The body of a string literal after its opening quote (strict mode:
    a control character ends the decoding with an error). *)
Fixpoint scanstring (cs : list ascii) (acc : list ascii) : option (string * list ascii) :=
  match cs with
  | [] => None
  | c :: r =>
      if Ascii.eqb c quote then Some (string_of_list_ascii (rev acc), r)
      else if Ascii.eqb c "\" then
        match r with
        | [] => None
        | e :: r1 =>
            match simple_escape e with
            | Some ch => scanstring r1 (ch :: acc)
            | None =>
                if Ascii.eqb e "u" then
                  match r1 with
                  | h1 :: h2 :: h3 :: h4 :: r2 =>
                      match hex4 h1 h2 h3 h4 with
                      | Some hi =>
                          match (if (55296 <=? hi) && (hi <=? 56319)
                                 then low_surrogate r2 else None), r2 with
                          | Some lo, _ :: _ :: _ :: _ :: _ :: _ :: r3 =>
                              scanstring r3
                                (utf8_rev (65536 + (hi - 55296) * 1024 + (lo - 56320)) ++ acc)
                          | _, _ => scanstring r2 (utf8_rev hi ++ acc)
                          end
                      | None => None
                      end
                  | _ => None
                  end
                else None
            end
        end
      else if (N_of_ascii c <? 32)%N then None
      else scanstring r (c :: acc)
  end.

Fixpoint digits (cs : list ascii) (v n : Z) : Z * Z * list ascii :=
  match cs with
  | c :: r => if Str.is_digit c then digits r (10 * v + Str.digit_val c) (n + 1)
              else (v, n, cs)
  | [] => (v, n, [])
  end.

(** The integer part without its sign: a lone [0], or a non-zero digit
    and the digits after it. *)
Definition int_part (cs : list ascii) : option (Z * list ascii) :=
  match cs with
  | c :: r =>
      if Ascii.eqb c "0" then Some (0, r)
      else if Str.is_digit c then
        let '(v, _, r') := digits r (Str.digit_val c) 1 in Some (v, r')
      else None
  | [] => None
  end.

(** The fraction, a point and at least one digit; continues the integer
    [v]. *)
Definition frac_part (cs : list ascii) (v : Z) : option (Z * Z * list ascii) :=
  match cs with
  | c :: d :: r =>
      if Ascii.eqb c "." && Str.is_digit d
      then Some (digits r (10 * v + Str.digit_val d) 1)
      else None
  | _ => None
  end.

(** The exponent: [e] or [E], an optional sign, at least one digit. *)
Definition exp_part (cs : list ascii) : option (Z * list ascii) :=
  match cs with
  | c :: r =>
      if Ascii.eqb (Str.lower c) "e" then
        let '(neg, r1) :=
          match r with
          | s :: r' => if Ascii.eqb s "-" then (true, r')
                       else if Ascii.eqb s "+" then (false, r') else (false, r)
          | [] => (false, r)
          end in
        match r1 with
        | d :: r2 =>
            if Str.is_digit d then
              let '(v, _, r3) := digits r2 (Str.digit_val d) 1 in
              Some (if neg then - v else v, r3)
            else None
        | [] => None
        end
      else None
  | [] => None
  end.

(** A number: an [int] when it has neither fraction nor exponent, the
    nearest [float] otherwise. *)
Definition number (cs : list ascii) : option (value * list ascii) :=
  let '(neg, r) :=
    match cs with
    | c :: r' => if Ascii.eqb c "-" then (true, r') else (false, cs)
    | [] => (false, cs)
    end in
  match int_part r with
  | None => None
  | Some (i, r1) =>
      let '(m, nfrac, r2, has_frac) :=
        match frac_part r1 i with
        | Some (m, n, r2) => (m, n, r2, true)
        | None => (i, 0, r1, false)
        end in
      match exp_part r2 with
      | Some (e, r3) => Some (VFloat (F64.of_decimal neg m (e - nfrac)), r3)
      | None =>
          if has_frac then Some (VFloat (F64.of_decimal neg m (- nfrac)), r2)
          else Some (VInt (if neg then - i else i), r2)
      end
  end.

Fixpoint strip_prefix (p : string) (cs : list ascii) : option (list ascii) :=
  match p with
  | EmptyString => Some cs
  | String c p' =>
      match cs with
      | d :: r => if Ascii.eqb c d then strip_prefix p' r else None
      | [] => None
      end
  end.

(** The literals and numbers. *)
Definition scalar (cs : list ascii) : option (value * list ascii) :=
  match strip_prefix "null" cs with Some r => Some (VNone, r) | None =>
  match strip_prefix "true" cs with Some r => Some (VBool true, r) | None =>
  match strip_prefix "false" cs with Some r => Some (VBool false, r) | None =>
  match number cs with Some res => Some res | None =>
  match strip_prefix "NaN" cs with Some r => Some (VFloat S754_nan, r) | None =>
  match strip_prefix "Infinity" cs with Some r => Some (VFloat (S754_infinity false), r) | None =>
  match strip_prefix "-Infinity" cs with Some r => Some (VFloat (S754_infinity true), r) | None =>
  None end end end end end end end.

(** One JSON value at the head of the input and what follows it.  The
    recursion goes on a fuel; what [loads] gives is enough for every input
    (lemma [loads_fuel_enough]). *)
Fixpoint parse_value (fuel : nat) (cs : list ascii) {struct fuel}
  : option (value * list ascii) :=
  match fuel with
  | O => None
  | S f =>
      match cs with
      | [] => None
      | c :: r =>
          if Ascii.eqb c quote then
            match scanstring r [] with
            | Some (s, r') => Some (VStr s, r')
            | None => None
            end
          else if Ascii.eqb c "{" then
            match skip_ws r with
            | d :: r' => if Ascii.eqb d "}" then Some (VDict [], r')
                         else parse_members f (d :: r') []
            | [] => None
            end
          else if Ascii.eqb c "[" then
            match skip_ws r with
            | d :: r' => if Ascii.eqb d "]" then Some (VList [], r')
                         else parse_elements f (d :: r') []
            | [] => None
            end
          else scalar cs
      end
  end

with parse_members (fuel : nat) (cs : list ascii) (acc : list (string * value))
  {struct fuel} : option (value * list ascii) :=
  match fuel with
  | O => None
  | S f =>
      match cs with
      | c :: r =>
          if Ascii.eqb c quote then
            match scanstring r [] with
            | Some (k, r1) =>
                match skip_ws r1 with
                | colon :: r2 =>
                    if Ascii.eqb colon ":" then
                      match parse_value f (skip_ws r2) with
                      | Some (v, r3) =>
                          let acc' := dict_set k v acc in
                          match skip_ws r3 with
                          | d :: r4 =>
                              if Ascii.eqb d "}" then Some (VDict acc', r4)
                              else if Ascii.eqb d ","
                                   then parse_members f (skip_ws r4) acc'
                                   else None
                          | [] => None
                          end
                      | None => None
                      end
                    else None
                | [] => None
                end
            | None => None
            end
          else None
      | [] => None
      end
  end

with parse_elements (fuel : nat) (cs : list ascii) (acc : list value)
  {struct fuel} : option (value * list ascii) :=
  match fuel with
  | O => None
  | S f =>
      match parse_value f cs with
      | Some (v, r) =>
          match skip_ws r with
          | d :: r1 =>
              if Ascii.eqb d "]" then Some (VList (rev (v :: acc)), r1)
              else if Ascii.eqb d "," then parse_elements f (skip_ws r1) (v :: acc)
              else None
          | [] => None
          end
      | None => None
      end
  end.

(** [json.loads(s)]: one value, with white space allowed around it and
    nothing else.  (CPython's recursion limit on deep nesting and its
    limit on the digits of an integer are not modelled.) *)
Definition loads (s : string) : outcome value :=
  let cs := skip_ws (list_ascii_of_string s) in
  match parse_value (2 + List.length cs) cs with
  | Some (v, r) => match skip_ws r with
                   | [] => Ok v
                   | _ => Raise JSONDecodeError
                   end
  | None => Raise JSONDecodeError
  end.

End Json.

(** JSON text is written below with apostrophes where the text has double
    quotes; [dq] puts the double quotes in. *)
Fixpoint dq (s : string) : string :=
  match s with
  | EmptyString => EmptyString
  | String c r => String (if Ascii.eqb c "'" then Json.quote else c) (dq r)
  end.

Definition nl : string := String "010" EmptyString.

(** ** Dates and times *)

Module Datetime.

Record date : Type := mkdate { year : Z; month : Z; day : Z }.

(** [utcoffset] is the offset of an aware datetime in microseconds,
    [None] for a naive one. *)
Record datetime : Type := mkdatetime {
  on : date;
  hour : Z; minute : Z; second : Z; microsecond : Z;
  utcoffset : option Z
}.

Definition date_eqb (a b : date) : bool :=
  (year a =? year b) && (month a =? month b) && (day a =? day b).

Definition is_leap (y : Z) : bool :=
  (y mod 4 =? 0) && (negb (y mod 100 =? 0) || (y mod 400 =? 0)).

Definition days_in_month (y m : Z) : Z :=
  if m =? 2 then (if is_leap y then 29 else 28)
  else if (m =? 4) || (m =? 6) || (m =? 9) || (m =? 11) then 30
  else 31.

Definition valid_date (y m d : Z) : bool :=
  (1 <=? y) && (y <=? 9999) && (1 <=? m) && (m <=? 12) &&
  (1 <=? d) && (d <=? days_in_month y m).

Definition in_range (c : ascii) (lo hi : Z) : bool :=
  Str.is_digit c && (lo <=? Str.digit_val c) && (Str.digit_val c <=? hi).

(** [n] digits exactly. *)
Fixpoint take_digits (n : nat) (cs : list ascii) (v : Z) : option (Z * list ascii) :=
  match n with
  | O => Some (v, cs)
  | S n' =>
      match cs with
      | c :: r => if Str.is_digit c then take_digits n' r (10 * v + Str.digit_val c)
                  else None
      | [] => None
      end
  end.

Definition expect (c : ascii) (cs : list ascii) : option (list ascii) :=
  match cs with
  | d :: r => if Ascii.eqb c d then Some r else None
  | [] => None
  end.

(** [%m] followed by [-]: 10 to 12, or 01 to 09, or a single digit 1 to
    9; the first alternative after which the [-] follows. *)
Definition strptime_month (cs : list ascii) : option (Z * list ascii) :=
  match cs with
  | a :: b :: r =>
      let two :=
        (Ascii.eqb a "1" && in_range b 0 2) || (Ascii.eqb a "0" && in_range b 1 9) in
      match (if two then expect "-" r else None) with
      | Some r' => Some (10 * Str.digit_val a + Str.digit_val b, r')
      | None =>
          if in_range a 1 9 && Ascii.eqb b "-" then Some (Str.digit_val a, r) else None
      end
  | _ => None
  end.

(** [%d] at the end of the format: 30 or 31, or 10 to 29, or 01 to 09,
    or a single digit 1 to 9, or a space and such a digit; the first
    alternative that matches. *)
Definition strptime_day (cs : list ascii) : option (Z * list ascii) :=
  match cs with
  | a :: r =>
      match r with
      | b :: r' =>
          if (Ascii.eqb a "3" && in_range b 0 1) || (in_range a 1 2 && Str.is_digit b)
             || (Ascii.eqb a "0" && in_range b 1 9)
          then Some (10 * Str.digit_val a + Str.digit_val b, r')
          else if in_range a 1 9 then Some (Str.digit_val a, r)
          else if Ascii.eqb a " " && in_range b 1 9 then Some (Str.digit_val b, r')
          else None
      | [] => if in_range a 1 9 then Some (Str.digit_val a, []) else None
      end
  | [] => None
  end.

(** [datetime.strptime(s, "%Y-%m-%d").date()] *)
Definition strptime_date (s : string) : outcome date :=
  match take_digits 4 (list_ascii_of_string s) 0 with
  | Some (y, r) =>
      match expect "-" r with
      | Some r1 =>
          match strptime_month r1 with
          | Some (m, r2) =>
              match strptime_day r2 with
              | Some (d, []) =>
                  if valid_date y m d then Ok (mkdate y m d) else Raise ValueError
              | _ => Raise ValueError
              end
          | None => Raise ValueError
          end
      | None => Raise ValueError
      end
  | None => Raise ValueError
  end.

(** The tail of the input after one UTF-8 encoded character. *)
Definition skip_char (cs : list ascii) : option (list ascii) :=
  match cs with
  | [] => None
  | c :: r =>
      let n := N_of_ascii c in
      Some (skipn (if (n <? 192)%N then 0 else if (n <? 224)%N then 1
                   else if (n <? 240)%N then 2 else 3)%nat r)
  end.

(** [HH[:MM[:SS[.fff[fff]]]]], the whole of the input. *)
Definition hh_mm_ss_ff (cs : list ascii) : option (Z * Z * Z * Z) :=
  match take_digits 2 cs 0 with
  | Some (h, []) => Some (h, 0, 0, 0)
  | Some (h, c1 :: r1) =>
      if negb (Ascii.eqb c1 ":") then None else
      match take_digits 2 r1 0 with
      | Some (m, []) => Some (h, m, 0, 0)
      | Some (m, c2 :: r2) =>
          if negb (Ascii.eqb c2 ":") then None else
          match take_digits 2 r2 0 with
          | Some (s, []) => Some (h, m, s, 0)
          | Some (s, c3 :: r3) =>
              if negb (Ascii.eqb c3 ".") then None else
              match take_digits 3 r3 0 with
              | Some (ms, []) => Some (h, m, s, ms * 1000)
              | Some (ms, r4) =>
                  match take_digits 3 r4 ms with
                  | Some (us, []) => Some (h, m, s, us)
                  | _ => None
                  end
              | None => None
              end
          | None => None
          end
      | None => None
      end
  | None => None
  end.

(** The input up to its first [+] or [-], the sign found and what
    follows it. *)
Fixpoint split_sign (cs : list ascii) : list ascii * option (bool * list ascii) :=
  match cs with
  | [] => ([], None)
  | c :: r =>
      if Ascii.eqb c "-" then ([], Some (true, r))
      else if Ascii.eqb c "+" then ([], Some (false, r))
      else let '(t, z) := split_sign r in (c :: t, z)
  end.

(** The offset [HH:MM], [HH:MM:SS] or [HH:MM:SS.ffffff] in microseconds;
    it has to stay within a day. *)
Definition tz_offset (neg : bool) (cs : list ascii) : option Z :=
  let n := List.length cs in
  if negb (Nat.eqb n 5 || Nat.eqb n 8 || Nat.eqb n 15) then None else
  match hh_mm_ss_ff cs with
  | Some (h, m, s, us) =>
      let off := ((h * 60 + m) * 60 + s) * 1000000 + us in
      if off <? 86400000000 then Some (if neg then - off else off) else None
  | None => None
  end.

(** [datetime.fromisoformat(s)] for the format
    [YYYY-MM-DD[*HH[:MM[:SS[.fff[fff]]]][+HH:MM[:SS[.ffffff]]]]], where
    [*] is any one character.  (CPython 3.11 and later accept further
    ISO 8601 forms; the theorems below use the outcome of this call and
    the fields of the datetime it returns, not this grammar.) *)
Definition fromisoformat (s : string) : outcome datetime :=
  let cs := list_ascii_of_string s in
  match take_digits 4 cs 0 with
  | Some (y, r) =>
  match expect "-" r with
  | Some r1 =>
  match take_digits 2 r1 0 with
  | Some (m, r2) =>
  match expect "-" r2 with
  | Some r3 =>
  match take_digits 2 r3 0 with
  | Some (d, r4) =>
      if negb (valid_date y m d) then Raise ValueError else
      match r4 with
      | [] => Ok (mkdatetime (mkdate y m d) 0 0 0 0 None)
      | _ =>
          match skip_char r4 with
          | Some t =>
              let '(ts, z) := split_sign t in
              match hh_mm_ss_ff ts with
              | Some (h, mi, sec, us) =>
                  if negb ((h <? 24) && (mi <? 60) && (sec <? 60)) then Raise ValueError
                  else
                    match z with
                    | None => Ok (mkdatetime (mkdate y m d) h mi sec us None)
                    | Some (neg, zs) =>
                        match tz_offset neg zs with
                        | Some off => Ok (mkdatetime (mkdate y m d) h mi sec us (Some off))
                        | None => Raise ValueError
                        end
                    end
              | None => Raise ValueError
              end
          | None => Raise ValueError
          end
      end
  | None => Raise ValueError end
  | None => Raise ValueError end
  | None => Raise ValueError end
  | None => Raise ValueError end
  | None => Raise ValueError end.

(** [datetime.fromisoformat(x).date()] for any value [x]: the year,
    month and day as written; the offset plays no part. *)
Definition isoformat_date (x : value) : outcome date :=
  match x with
  | VStr s => obind (fromisoformat s) (fun dt => Ok (on dt))
  | _ => Raise TypeError
  end.

End Datetime.

(** ** The log reader *)

Local Open Scope list_scope.

(** The files a run can see: the decoded text of each readable path. *)
Definition filesystem : Type := string -> option string.

(** [open(path, "r")] and the lines the file yields. *)
Definition open_lines (fs : filesystem) (path : string) : io (list string) :=
  emit (EvOpen path) ;;;
  match fs path with
  | Some text => ret (Str.lines text)
  | None => raise (OSError path)
  end.

Definition skip_message (line : string) : string :=
  ("Skipping invalid JSON line: " ++ Str.strip line)%string.

(** The body of the loop over the lines of a file; [logs] is the list
    built so far, [date_filter] the parsed filter ([if date_filter:] holds
    for every date object). *)
Definition read_line (date_filter : option Datetime.date) (logs : list value)
  (line : string) : io (list value) :=
  try_except_JSONDecodeError
    (log <- lift (Json.loads line) ;;
     match date_filter with
     | Some d =>
         ts <- lift (subscript log "@timestamp") ;;
         log_date <- lift (Datetime.isoformat_date ts) ;;
         if negb (Datetime.date_eqb log_date d)
         then ret logs                                  (* continue *)
         else ret (logs ++ [log])
     | None => ret (logs ++ [log])
     end)
    (emit (EvPrint (skip_message line)) ;;; ret logs).

(** [datetime.strptime(date_filter, "%Y-%m-%d").date() if date_filter else None]:
    the empty string is false, as [None] is. *)
Definition parse_date_filter (date_filter : option string) : outcome (option Datetime.date) :=
  match date_filter with
  | None => Ok None
  | Some EmptyString => Ok None
  | Some s => obind (Datetime.strptime_date s) (fun d => Ok (Some d))
  end.

Definition read_file (fs : filesystem) (date_filter : option Datetime.date)
  (logs : list value) (file_path : string) : io (list value) :=
  f <- open_lines fs file_path ;;
  for_each f (read_line date_filter) logs.

Definition read_logs (fs : filesystem) (file_paths : list string)
  (date_filter : option string) : io (list value) :=
  date_filter' <- lift (parse_date_filter date_filter) ;;
  for_each file_paths (read_file fs date_filter') [].

(** ** The report strategies *)

(** What [generate] returns: the rows and the headers. *)
Definition table : Type := list (list value) * list string.

(** *** Comparisons of [sorted] *)

(** The exact order of two numbers ([bool] counts as 0 or 1); [None] when
    one of them is not a number or is a NaN. *)
Definition float_vs_int (f : F64.float) (z : Z) : option comparison :=
  match f with
  | S754_nan => None
  | S754_infinity s => Some (if s then Lt else Gt)
  | S754_zero _ => Some (0 ?= z)
  | S754_finite s m e =>
      let v := if s then Zneg m else Zpos m in
      Some (if 0 <=? e then (v * 2 ^ e ?= z) else (v ?= z * 2 ^ (- e)))
  end.

Definition num_compare (a b : value) : option comparison :=
  let int_of v := match v with
                  | VInt z => Some z
                  | VBool b => Some (if b then 1 else 0)
                  | _ => None
                  end in
  match a, b with
  | VFloat x, VFloat y => SFcompare x y
  | VFloat x, _ => match int_of b with Some z => float_vs_int x z | None => None end
  | _, VFloat y => match int_of a with
                   | Some z => option_map CompOpp (float_vs_int y z)
                   | None => None
                   end
  | _, _ => match int_of a, int_of b with
            | Some x, Some y => Some (x ?= y)
            | _, _ => None
            end
  end.

Definition is_number (v : value) : bool :=
  match v with VInt _ | VBool _ | VFloat _ => true | _ => false end.

(** [a == b] on hashable values. *)
Definition py_eq (a b : value) : bool :=
  match a, b with
  | VNone, VNone => true
  | VStr s, VStr t => String.eqb s t
  | _, _ => match num_compare a b with Some Eq => true | _ => false end
  end.

(** [a < b]: strings by code point, numbers by value; no other pair of
    hashable values is ordered. *)
Definition py_lt (a b : value) : outcome bool :=
  match a, b with
  | VStr s, VStr t => Ok (String.ltb s t)
  | _, _ =>
      if is_number a && is_number b
      then Ok (match num_compare a b with Some Lt => true | _ => false end)
      else Raise TypeError
  end.

(** [sorted]: stable, and built on [<] alone.  On keys that [<] orders
    totally every stable sort returns the same list, and a sort compares
    two keys of different kinds as soon as two kinds are present, so this
    insertion sort returns, or raises, as [sorted] does.  (With NaN keys
    the order CPython leaves depends on its merge strategy and is not
    claimed.) *)
Fixpoint insert_sorted {A} (lt : A -> A -> outcome bool) (x : A) (l : list A)
  : outcome (list A) :=
  match l with
  | [] => Ok [x]
  | y :: l' =>
      obind (lt y x) (fun b =>
        if b then obind (insert_sorted lt x l') (fun r => Ok (y :: r))
        else Ok (x :: y :: l'))
  end.

Fixpoint sorted {A} (lt : A -> A -> outcome bool) (l : list A) : outcome (list A) :=
  match l with
  | [] => Ok []
  | x :: l' => obind (sorted lt l') (insert_sorted lt x)
  end.

(** [for x in xs], without effects. *)
Fixpoint fold_outcome {X S} (xs : list X) (body : S -> X -> outcome S) (s : S)
  : outcome S :=
  match xs with
  | [] => Ok s
  | x :: xs' => obind (body s x) (fold_outcome xs' body)
  end.

Fixpoint map_outcome {X Y} (f : X -> outcome Y) (xs : list X) : outcome (list Y) :=
  match xs with
  | [] => Ok []
  | x :: xs' => obind (f x) (fun y => obind (map_outcome f xs') (fun ys => Ok (y :: ys)))
  end.

(** *** AverageReport *)

(** [{"count": ..., "total_time": ...}].  The total starts as the int 0;
    adding a float to it converts it to 0.0 first, so it is kept as a
    float from the start. *)
Record stats : Type := mkstats { count : Z; total_time : F64.float }.

(** [endpoint_stats[endpoint]["count"] += 1;
     endpoint_stats[endpoint]["total_time"] += time] on the defaultdict:
    a missing endpoint is entered last with zero count and total. *)
Fixpoint stats_add (endpoint : string) (time : F64.float) (d : list (string * stats))
  : list (string * stats) :=
  match d with
  | [] => [(endpoint, mkstats (0 + 1) (F64.add F64.zero time))]
  | (k, s) :: d' =>
      if String.eqb k endpoint
      then (k, mkstats (count s + 1) (F64.add (total_time s) time)) :: d'
      else (k, s) :: stats_add endpoint time d'
  end.

(** [url.split('?')[0].split('#')[0]] *)
Definition normalize_url (url : string) : string :=
  Str.split_head "#" (Str.split_head "?" url).

(** [log["url"].split('?')[0].split('#')[0]] *)
Definition endpoint_of (log : value) : outcome string :=
  obind (subscript log "url") (fun u =>
    match u with
    | VStr url => Ok (normalize_url url)
    | _ => Raise AttributeError
    end).

Definition response_time_of (log : value) : outcome F64.float :=
  obind (subscript log "response_time") py_float.

Definition average_step (endpoint_stats : list (string * stats)) (log : value)
  : outcome (list (string * stats)) :=
  obind (endpoint_of log) (fun endpoint =>
  obind (response_time_of log) (fun time =>
  Ok (stats_add endpoint time endpoint_stats))).

Definition average_row (item : string * stats) : outcome (list value) :=
  let '(endpoint, st) := item in
  obind (truediv_int (total_time st) (count st)) (fun avg_time =>
  Ok [VStr endpoint; VInt (count st); VStr (F64.format_3f avg_time)]).

(** [x[0]] of a row. *)
Definition first_column (x : list value) : value := hd VNone x.

Definition by_first_column (x y : list value) : outcome bool :=
  py_lt (first_column x) (first_column y).

Definition AverageReport_generate (logs : list value) : outcome table :=
  obind (fold_outcome logs average_step []) (fun endpoint_stats =>
  obind (map_outcome average_row endpoint_stats) (fun rows =>
  obind (sorted by_first_column rows) (fun rows' =>
  Ok (rows', ["Endpoint"; "Count"; "Average Time"])))).

(** *** UserAgentReport *)

Definition hashable (v : value) : bool :=
  match v with VList _ | VDict _ => false | _ => true end.

(** [ua_stats[ua] += 1] on the [defaultdict(int)] *)
Fixpoint counter_add (ua : value) (d : list (value * Z)) : list (value * Z) :=
  match d with
  | [] => [(ua, 0 + 1)]
  | (k, n) :: d' => if py_eq k ua then (k, n + 1) :: d'
                    else (k, n) :: counter_add ua d'
  end.

Definition user_agent_of (log : value) : outcome value :=
  get_default log "http_user_agent" (VStr "Unknown").

Definition user_agent_step (ua_stats : list (value * Z)) (log : value)
  : outcome (list (value * Z)) :=
  obind (user_agent_of log) (fun ua =>
    if hashable ua then Ok (counter_add ua ua_stats) else Raise TypeError).

(** [(k1, n1) < (k2, n2)]: the first components decide unless equal. *)
Definition item_lt (x y : value * Z) : outcome bool :=
  if py_eq (fst x) (fst y) then Ok (snd x <? snd y)
  else py_lt (fst x) (fst y).

Definition UserAgentReport_generate (logs : list value) : outcome table :=
  obind (fold_outcome logs user_agent_step []) (fun ua_stats =>
  obind (sorted item_lt ua_stats) (fun items =>
  Ok (map (fun '(ua, n) => [ua; VInt n]) items, ["User-Agent"; "Count"]))).

(** *** The strategy objects and their lookup *)

Record ReportStrategy : Type := { generate : list value -> outcome table }.

Definition AverageReport : ReportStrategy := {| generate := AverageReport_generate |}.
Definition UserAgentReport : ReportStrategy := {| generate := UserAgentReport_generate |}.

Definition strategies : list (string * ReportStrategy) :=
  [("average", AverageReport); ("user_agent", UserAgentReport)].

Fixpoint lookup {A} (k : string) (d : list (string * A)) : option A :=
  match d with
  | [] => None
  | (k', v) :: d' => if String.eqb k' k then Some v else lookup k d'
  end.

(** [strategies.get(report_type)]: [None] for a name that is no key. *)
Definition get_report_strategy (report_type : string) : option ReportStrategy :=
  lookup report_type strategies.

(** ** The command line and [main] *)

(** The values the command line gives for the three options, before they
    are checked: [None] for an option that is not given.  (How argparse
    splits the words of the command line, and its [-h], are not
    modelled.) *)
Record command_line : Type := {
  opt_file : option (list string);
  opt_report : option string;
  opt_date : option string
}.

(** The namespace [parse_args] returns. *)
Record Namespace : Type := { file : list string; report : string; date : option string }.

Definition report_choices : list string := ["average"; "user_agent"].

(** [parser.error(...)]: the usage and the error are written to standard
    error and the process exits with status 2. *)
Definition argparse_error {A} (e : usage_error) : io A :=
  (Raise (SystemExit 2), [EvUsage e]).

(** [parse_args()]: [--report] is checked against its [choices] when it
    is read, [--file] takes one path or more, and both are required. *)
Definition parse_args (argv : command_line) : io Namespace :=
  match opt_report argv with
  | Some r =>
      if existsb (String.eqb r) report_choices then
        match opt_file argv with
        | Some (p :: ps) => ret {| file := p :: ps; report := r; date := opt_date argv |}
        | Some [] => argparse_error (ExpectedArgument "--file")
        | None => argparse_error RequiredMissing
        end
      else argparse_error (InvalidChoice r)
  | None =>
      match opt_file argv with
      | Some [] => argparse_error (ExpectedArgument "--file")
      | _ => argparse_error RequiredMissing
      end
  end.

(** The statements of [main] after [parse_args()]. *)
Definition run (fs : filesystem) (args : Namespace) : io unit :=
  logs <- read_logs fs (file args) (date args) ;;
  match get_report_strategy (report args) with
  | None => raise ValueError                 (* if not strategy: raise ValueError(...) *)
  | Some strategy =>
      r <- lift (generate strategy logs) ;;
      emit (EvTable (fst r) (snd r))
  end.

Definition main (fs : filesystem) (argv : command_line) : io unit :=
  args <- parse_args argv ;;
  run fs args.

(** ** The data of the repository's test suite *)

Module Tests.

Definition sample_lines : list string :=
  map dq
    ["{'url': '/api/users', 'response_time': '0.123', 'http_user_agent': 'Chrome', '@timestamp': '2025-06-22T00:00:00+00:00'}";
     "{'url': '/api/users', 'response_time': '0.456', 'http_user_agent': 'Firefox', '@timestamp': '2025-06-22T01:00:00+00:00'}";
     "{'url': '/api/products?id=1', 'response_time': '0.789', 'http_user_agent': 'Chrome', '@timestamp': '2025-06-23T00:00:00+00:00'}";
     "{'url': '/api/context/...', 'response_time': '0.321', 'http_user_agent': 'Safari', '@timestamp': '2025-06-22T02:00:00+00:00'}"].

Definition record (url time ua ts : string) : value :=
  VDict [("url", VStr url); ("response_time", VStr time);
         ("http_user_agent", VStr ua); ("@timestamp", VStr ts)].

Definition sample_logs : list value :=
  [record "/api/users" "0.123" "Chrome" "2025-06-22T00:00:00+00:00";
   record "/api/users" "0.456" "Firefox" "2025-06-22T01:00:00+00:00";
   record "/api/products?id=1" "0.789" "Chrome" "2025-06-23T00:00:00+00:00";
   record "/api/context/..." "0.321" "Safari" "2025-06-22T02:00:00+00:00"].

(** The temporary file: the four records and one line that is no JSON. *)
Definition log_text : string :=
  (String.concat nl sample_lines ++ nl ++ "invalid json" ++ nl)%string.

Definition log_file (path : string) : option string :=
  if String.eqb path "test.log" then Some log_text else None.

End Tests.

(** * The notions the statements speak of *)

Definition is_mapping (v : value) : bool :=
  match v with VDict _ => true | _ => false end.

(** The lines of the given files in the order they are read; a path that
    cannot be read has none. *)
Definition lines_of (fs : filesystem) (path : string) : list string :=
  match fs path with
  | Some text => Str.lines text
  | None => []
  end.

Definition all_lines (fs : filesystem) (paths : list string) : list string :=
  flat_map (lines_of fs) paths.

Definition readable (fs : filesystem) (path : string) : bool :=
  match fs path with Some _ => true | None => false end.

Definition decodes (line : string) : bool :=
  match Json.loads line with Ok _ => true | Raise _ => false end.

(** The values of the lines that decode, in order. *)
Definition decoded (ls : list string) : list value :=
  flat_map (fun l => match Json.loads l with Ok v => [v] | Raise _ => [] end) ls.

(** The calendar date of a record's [@timestamp], as the reader takes it. *)
Definition timestamp_date (log : value) : outcome Datetime.date :=
  obind (subscript log "@timestamp") Datetime.isoformat_date.

Definition on_date (d : Datetime.date) (log : value) : bool :=
  match timestamp_date log with
  | Ok d' => Datetime.date_eqb d' d
  | Raise _ => false
  end.

(** A line that does not stop a run with the filter on: it fails to
    decode, or its record has a timestamp that parses. *)
Definition harmless (line : string) : bool :=
  match Json.loads line with
  | Ok v => match timestamp_date v with Ok _ => true | Raise _ => false end
  | Raise _ => true
  end.

(** What is seen of reading one file to its end: the file is opened and
    one message is printed for each line that does not decode. *)
Definition file_events (fs : filesystem) (path : string) : list event :=
  EvOpen path ::
  map (fun l => EvPrint (skip_message l))
      (filter (fun l => negb (decodes l)) (lines_of fs path)).

Definition is_table (ev : event) : bool :=
  match ev with EvTable _ _ => true | _ => false end.

(** A record the average report can take: a mapping with a string [url]
    and a [response_time] that [float] accepts. *)
Definition average_ready (log : value) : bool :=
  match endpoint_of log, response_time_of log with
  | Ok _, Ok _ => true
  | _, _ => false
  end.

(** The normalized endpoints of the records, one for each record. *)
Definition endpoints (logs : list value) : list string :=
  flat_map (fun log => match endpoint_of log with Ok e => [e] | Raise _ => [] end) logs.

(** The response times of the records of one endpoint, in input order. *)
Definition times_of (endpoint : string) (logs : list value) : list F64.float :=
  flat_map (fun log =>
              match endpoint_of log, response_time_of log with
              | Ok e, Ok t => if String.eqb e endpoint then [t] else []
              | _, _ => []
              end) logs.

(** The mean as floats give it: the times added up in order from zero,
    the sum divided by their number. *)
Definition float_mean (ts : list F64.float) : F64.float :=
  F64.div (fold_left F64.add ts F64.zero) (F64.of_int (Z.of_nat (List.length ts))).

(** The count in the second column of a row. *)
Definition count_column (row : list value) : Z :=
  match row with
  | _ :: VInt n :: _ => n
  | _ => 0
  end.

Definition sum_counts (rows : list (list value)) : Z :=
  fold_right (fun row acc => count_column row + acc) 0 rows.





(** The first columns are strings in strictly ascending order. *)
Definition row_lt (x y : list value) : Prop :=
  match first_column x, first_column y with
  | VStr s, VStr t => String.ltb s t = true
  | _, _ => False
  end.

(** The group of a record in the user-agent report, when the record is a
    mapping whose [http_user_agent] is a string or is missing. *)
Definition user_agent_group (log : value) : option string :=
  match log with
  | VDict d =>
      match dict_get "http_user_agent" d with
      | None => Some "Unknown"
      | Some (VStr s) => Some s
      | Some _ => None
      end
  | _ => None
  end.

Definition user_agent_ready (log : value) : bool :=
  match user_agent_group log with Some _ => true | None => false end.

Definition user_agents (logs : list value) : list string :=
  flat_map (fun log => match user_agent_group log with Some s => [s] | None => [] end) logs.

(** A record that has only a [url] and a [response_time]. *)
Definition entry (url : string) (time : F64.float) : value :=
  VDict [("url", VStr url); ("response_time", VFloat time)].

(** The records the reader keeps of the given lines: all that decode, or
    with the filter on those of them dated [d]. *)
Definition kept (date_filter : option Datetime.date) (ls : list string) : list value :=
  match date_filter with
  | None => decoded ls
  | Some d => filter (on_date d) (decoded ls)
  end.

(** A line that does not stop the reader under the given filter. *)
Definition passable (date_filter : option Datetime.date) (line : string) : bool :=
  match date_filter with
  | None => true
  | Some _ => harmless line
  end.

(** A record without a usable timestamp: the field is missing, or its
    value does not parse as an ISO 8601 datetime. *)
Inductive timestamp_fault : value -> Prop :=
| timestamp_missing d :
    dict_get "@timestamp" d = None -> timestamp_fault (VDict d)
| timestamp_unparsable d ts e :
    dict_get "@timestamp" d = Some ts ->
    Datetime.isoformat_date ts = Raise e ->
    timestamp_fault (VDict d).

(** No table among the events. *)
Definition no_table (t : list event) : Prop :=
  forall ev, In ev t -> is_table ev = false.

(** What is seen of reading one line that is not fatal. *)
Definition line_events (line : string) : list event :=
  if decodes line then [] else [EvPrint (skip_message line)].

(** ** Further sample inputs *)

Module Samples.

(** A file whose only line is a bare number. *)
Definition bare_file (path : string) : option string :=
  if String.eqb path "bare.log" then Some ("42" ++ nl)%string else None.

(** A file with a record that has no timestamp, after one that has. *)
Definition undated_line : string := dq "{'url': '/a', 'response_time': '1'}".

Definition undated_file (path : string) : option string :=
  if String.eqb path "undated.log"
  then Some (nth 0 Tests.sample_lines EmptyString ++ nl ++ undated_line ++ nl)%string
  else None.

(** A timestamp late on 22 June in a zone five hours behind UTC: in UTC
    it is 23 June already. *)
Definition late_line : string :=
  dq "{'url': '/a', '@timestamp': '2025-06-22T23:30:00-05:00'}".

Definition late_file (path : string) : option string :=
  if String.eqb path "late.log" then Some (late_line ++ nl)%string else None.

End Samples.

(** [a] may stand before [b] in a list sorted by the test [ltb]: [b] is
    not below [a]. *)
Definition not_above {A} (ltb : A -> A -> bool) (a b : A) : Prop := ltb b a = false.

(** ** The average report, stated on the records *)

(** The count and the total of one endpoint. *)
Definition stat_of (endpoint : string) (logs : list value) : stats :=
  mkstats (Z.of_nat (List.length (times_of endpoint logs)))
          (fold_left F64.add (times_of endpoint logs) F64.zero).

Definition total_count (d : list (string * stats)) : Z :=
  fold_right (fun item acc => count (snd item) + acc) 0 d.

(** The statistics [d] are those of the records [logs]: one item for each
    endpoint, holding its count and its total. *)
Definition stats_for (d : list (string * stats)) (logs : list value) : Prop :=
  NoDup (map fst d) /\
  (forall k, lookup k d =
             if in_dec string_dec k (endpoints logs) then Some (stat_of k logs) else None) /\
  (forall k s, lookup k d = Some s -> 0 < count s) /\
  total_count d = Z.of_nat (List.length logs).

(** The row of an item, the mean written out. *)
Definition row_of (item : string * stats) : list value :=
  [VStr (fst item); VInt (count (snd item));
   VStr (F64.format_3f (F64.div (total_time (snd item)) (F64.of_int (count (snd item)))))].

(** The order of two rows whose first columns are strings. *)
Definition row_ltb (x y : list value) : bool :=
  match first_column x, first_column y with
  | VStr s, VStr t => String.ltb s t
  | _, _ => false
  end.

Definition string_keyed (x : list value) : Prop :=
  exists s, first_column x = VStr s.

(** ** The user-agent report, stated on the records *)

(** The counter when all its keys are strings. *)
Fixpoint tally (ua : string) (c : list (string * Z)) : list (string * Z) :=
  match c with
  | [] => [(ua, 0 + 1)]
  | (k, n) :: c' => if String.eqb k ua then (k, n + 1) :: c'
                    else (k, n) :: tally ua c'
  end.

Definition string_item (item : string * Z) : value * Z := (VStr (fst item), snd item).

(** The counts [c] are those of the records [logs]: one item for each
    user agent, holding the number of its records. *)
Definition counts_for (c : list (string * Z)) (logs : list value) : Prop :=
  NoDup (map fst c) /\
  (forall k, lookup k c =
             if in_dec string_dec k (user_agents logs)
             then Some (Z.of_nat (count_occ string_dec (user_agents logs) k))
             else None).

(** The order of two items whose keys are strings. *)
Definition item_ltb (x y : value * Z) : bool :=
  match fst x, fst y with
  | VStr s, VStr t => if String.eqb s t then snd x <? snd y else String.ltb s t
  | _, _ => false
  end.

Definition string_keyed_item (x : value * Z) : Prop := exists s, fst x = VStr s.

Definition item_row (item : value * Z) : list value := [fst item; VInt (snd item)].

(** ** Notions of the further properties *)

Definition is_print (ev : event) : bool :=
  match ev with EvPrint _ => true | _ => false end.

Definition is_open (ev : event) : bool :=
  match ev with EvOpen _ => true | _ => false end.

(** The outcome of a computation that builds a list, had it started with
    [logs] already in the list. *)
Definition prepend (logs : list value) (m : io (list value)) : io (list value) :=
  match m with
  | (Ok l, t) => (Ok (logs ++ l), t)
  | (Raise e, t) => (Raise e, t)
  end.

(** Two runs of the reader, one after the other. *)
Definition read_then (a b : io (list value)) : io (list value) :=
  match a with
  | (Ok l1, t1) =>
      match b with
      | (Ok l2, t2) => (Ok (l1 ++ l2), t1 ++ t2)
      | (Raise e, t2) => (Raise e, t1 ++ t2)
      end
  | (Raise e, t1) => (Raise e, t1)
  end.

(** The part of a string from its first [?] or [#] on. *)
Fixpoint query_and_fragment (s : string) : string :=
  match s with
  | EmptyString => EmptyString
  | String c r => if Ascii.eqb c "?" || Ascii.eqb c "#" then s
                  else query_and_fragment r
  end.

(** The counts of a counter, added up. *)
Definition item_total (d : list (value * Z)) : Z :=
  fold_right (fun item acc => snd item + acc) 0 d.

(** Three response times whose float sum depends on the order they are
    added in: the large ones cancel, before or after the small one is
    lost in them. *)
Module Cancelling.

Definition big : value := entry "/a" (F64.of_int 10000000000000000).
Definition one : value := entry "/a" (F64.of_int 1).
Definition minus_big : value := entry "/a" (F64.of_int (-10000000000000000)).

End Cancelling.

(** * Worked examples *)

Example split_head_query : Str.split_head "?" "/api/products?id=1" = "/api/products".
Proof. reflexivity. Qed.

Example strip_line : Str.strip ("  invalid json " ++ nl)%string = "invalid json".
Proof. reflexivity. Qed.

Example lines_crlf :
  Str.lines ("a" ++ String "013" (String "010" "b") ++ String "010" "c")%string =
  [("a" ++ nl)%string; ("b" ++ nl)%string; "c"].
Proof. reflexivity. Qed.

Example of_nonneg_1205 : Str.of_nonneg 1205 = "1205" /\ Str.of_nonneg 0 = "0".
Proof. split; reflexivity. Qed.

Example float_tenth : F64.of_string "0.1" = Some (S754_finite false 7205759403792794 (-56)).
Proof. vm_compute. reflexivity. Qed.

Example float_forms :
  F64.of_string " 1_0.5e1 " = Some (F64.of_int 105) /\
  F64.of_string "-.5" = Some (S754_finite true 4503599627370496 (-53)) /\
  F64.of_string "1." = Some (F64.of_int 1) /\
  F64.of_string "1e400" = Some (S754_infinity false) /\
  F64.of_string "-Infinity" = Some (S754_infinity true) /\
  F64.of_string "1_" = None /\ F64.of_string "e5" = None /\
  F64.of_string EmptyString = None /\ F64.of_string "0x10" = None /\
  F64.of_string "5e-324" = Some (S754_finite false 1 (-1074)) /\
  F64.of_string "2e-324" = Some (S754_zero false).
Proof. vm_compute. repeat split. Qed.

Example float_edges :
  F64.of_string "0.3" = Some (S754_finite false 5404319552844595 (-54)) /\
  F64.of_string "1.7976931348623158e308" = Some (S754_finite false 9007199254740991 971) /\
  F64.of_string "1.7976931348623159e308" = Some (S754_infinity false) /\
  F64.of_string "2.2250738585072011e-308" = Some (S754_finite false 4503599627370495 (-1074)) /\
  F64.of_string "nan" = Some S754_nan.
Proof. vm_compute. repeat split. Qed.

(** The test suite's mean: 0.123 and 0.456 sum to a float just below
    0.579, whose half prints as 0.289 (in exact decimal arithmetic the
    mean 0.2895 would be a tie). *)
Example format_mean_289 :
  match F64.of_string "0.123", F64.of_string "0.456" with
  | Some a, Some b =>
      F64.format_3f (F64.div (F64.add (F64.add F64.zero a) b) (F64.of_int 2))
  | _, _ => EmptyString
  end = "0.289".
Proof. vm_compute. reflexivity. Qed.

Example format_forms :
  F64.format_3f (F64.of_int 12) = "12.000" /\
  F64.format_3f (F64.of_decimal true 1 (-4)) = "-0.000" /\
  F64.format_3f (F64.of_decimal false 5 (-4)) = "0.001" /\
  F64.format_3f (F64.of_decimal false 15 (-4)) = "0.002" /\
  F64.format_3f (F64.of_decimal false 2675 (-3)) = "2.675" /\
  F64.format_3f (F64.of_decimal false 1 23) = "99999999999999991611392.000" /\
  F64.format_3f S754_nan = "nan".
Proof. vm_compute. repeat split. Qed.

(** Exact ties go to the even neighbour: 0.0625 and 0.1875 are floats. *)
Example format_ties :
  F64.format_3f (F64.of_decimal false 625 (-4)) = "0.062" /\
  F64.format_3f (F64.of_decimal false 1875 (-4)) = "0.188" /\
  F64.format_3f (F64.of_decimal true 625 (-4)) = "-0.062".
Proof. vm_compute. repeat split. Qed.

Example loads_record :
  Json.loads (dq "{'url': '/api/users', 'response_time': '0.123', 'n': [1, -2.5e0, null, true]}" ++ nl)%string
  = Ok (VDict [("url", VStr "/api/users"); ("response_time", VStr "0.123");
               ("n", VList [VInt 1; VFloat (F64.of_decimal true 25 (-1)); VNone; VBool true])]).
Proof. vm_compute. reflexivity. Qed.

Example loads_scalars :
  Json.loads "42" = Ok (VInt 42) /\
  Json.loads " -0 " = Ok (VInt 0) /\
  Json.loads (dq "'a\u00e9\n\ud83d\ude00'") =
    Ok (VStr (String "a" (String "195" (String "169" (String "010"
         (String "240" (String "159" (String "152" (String "128" EmptyString))))))))) /\
  Json.loads (dq "{'a': 1, 'b': 2, 'a': 3}") = Ok (VDict [("a", VInt 3); ("b", VInt 2)]) /\
  Json.loads "NaN" = Ok (VFloat S754_nan) /\
  Json.loads "[]" = Ok (VList []) /\
  Json.loads "{ }" = Ok (VDict []).
Proof. vm_compute. repeat split. Qed.

Example loads_invalid :
  Json.loads ("invalid json" ++ nl)%string = Raise JSONDecodeError /\
  Json.loads nl = Raise JSONDecodeError /\
  Json.loads "01" = Raise JSONDecodeError /\
  Json.loads "1." = Raise JSONDecodeError /\
  Json.loads "[1,]" = Raise JSONDecodeError /\
  Json.loads "{'a': 1}" = Raise JSONDecodeError /\
  Json.loads (dq "{'a': 1,}") = Raise JSONDecodeError /\
  Json.loads (dq "{'a': 1} x") = Raise JSONDecodeError /\
  Json.loads (dq "'a\qb'") = Raise JSONDecodeError.
Proof. vm_compute. repeat split. Qed.

Example strptime_forms :
  Datetime.strptime_date "2025-06-22" = Ok (Datetime.mkdate 2025 6 22) /\
  Datetime.strptime_date "2025-6-2" = Ok (Datetime.mkdate 2025 6 2) /\
  Datetime.strptime_date "2024-02-29" = Ok (Datetime.mkdate 2024 2 29) /\
  Datetime.strptime_date "2025-02-29" = Raise ValueError /\
  Datetime.strptime_date "2025-13-01" = Raise ValueError /\
  Datetime.strptime_date "2025-06-22T00:00" = Raise ValueError /\
  Datetime.strptime_date "22.06.2025" = Raise ValueError.
Proof. vm_compute. repeat split. Qed.

Example fromisoformat_forms :
  Datetime.fromisoformat "2025-06-22T00:00:00+00:00"
    = Ok (Datetime.mkdatetime (Datetime.mkdate 2025 6 22) 0 0 0 0 (Some 0)) /\
  Datetime.fromisoformat "2025-06-22 23:30:00.250-05:00"
    = Ok (Datetime.mkdatetime (Datetime.mkdate 2025 6 22) 23 30 0 250000
            (Some (-18000000000))) /\
  Datetime.fromisoformat "2025-06-22"
    = Ok (Datetime.mkdatetime (Datetime.mkdate 2025 6 22) 0 0 0 0 None) /\
  Datetime.fromisoformat "2025-06-22T25:00:00" = Raise ValueError /\
  Datetime.fromisoformat "2025-6-22" = Raise ValueError /\
  Datetime.fromisoformat "yesterday" = Raise ValueError /\
  Datetime.fromisoformat EmptyString = Raise ValueError.
Proof. vm_compute. repeat split. Qed.

(** What stops a report: a [response_time] that is no number, a record
    without [url], user agents of kinds that [<] does not order. *)
Example average_report_fatal :
  AverageReport_generate [VDict [("url", VStr "/a"); ("response_time", VStr "fast")]]
    = Raise ValueError /\
  AverageReport_generate [VDict [("response_time", VStr "1")]] = Raise (KeyError "url") /\
  AverageReport_generate [VDict [("url", VInt 7); ("response_time", VStr "1")]]
    = Raise AttributeError /\
  AverageReport_generate [VInt 42] = Raise TypeError.
Proof. vm_compute. repeat split. Qed.

Example user_agent_report_other_keys :
  UserAgentReport_generate
    [VDict [("http_user_agent", VInt 10)]; VDict [("http_user_agent", VInt 9)];
     VDict [("http_user_agent", VFloat (F64.of_int 10))]]
    = Ok ([[VInt 9; VInt 1]; [VInt 10; VInt 2]], ["User-Agent"; "Count"]) /\
  UserAgentReport_generate
    [VDict [("http_user_agent", VInt 10)]; VDict [("http_user_agent", VStr "Chrome")]]
    = Raise TypeError /\
  UserAgentReport_generate [VDict [("http_user_agent", VList [])]] = Raise TypeError /\
  UserAgentReport_generate [VStr "Chrome"] = Raise AttributeError.
Proof. vm_compute. repeat split. Qed.

(** ** The test suite of the repository, run on the model *)

Module TestSuite.

Import Tests.

Example test_read_logs_with_date_filter :
  read_logs log_file ["test.log"] (Some "2025-06-22") =
  (Ok [nth 0 sample_logs VNone; nth 1 sample_logs VNone; nth 3 sample_logs VNone],
   [EvOpen "test.log"; EvPrint "Skipping invalid JSON line: invalid json"]).
Proof. vm_compute. reflexivity. Qed.

Example test_read_logs_with_invalid_json :
  read_logs log_file ["test.log"] None =
  (Ok sample_logs, [EvOpen "test.log"; EvPrint "Skipping invalid JSON line: invalid json"]).
Proof. vm_compute. reflexivity. Qed.

Example test_average_report :
  AverageReport_generate sample_logs =
  Ok ([[VStr "/api/context/..."; VInt 1; VStr "0.321"];
       [VStr "/api/products"; VInt 1; VStr "0.789"];
       [VStr "/api/users"; VInt 2; VStr "0.289"]],
      ["Endpoint"; "Count"; "Average Time"]).
Proof. vm_compute. reflexivity. Qed.

Example test_user_agent_report :
  UserAgentReport_generate sample_logs =
  Ok ([[VStr "Chrome"; VInt 2]; [VStr "Firefox"; VInt 1]; [VStr "Safari"; VInt 1]],
      ["User-Agent"; "Count"]).
Proof. vm_compute. reflexivity. Qed.

Example test_main_average :
  main log_file {| opt_file := Some ["test.log"]; opt_report := Some "average";
                   opt_date := Some "2025-06-22" |} =
  (Ok tt,
   [EvOpen "test.log"; EvPrint "Skipping invalid JSON line: invalid json";
    EvTable [[VStr "/api/context/..."; VInt 1; VStr "0.321"];
             [VStr "/api/users"; VInt 2; VStr "0.289"]]
            ["Endpoint"; "Count"; "Average Time"]]).
Proof. vm_compute. reflexivity. Qed.

End TestSuite.

(** * Properties *)

(** ** URL normalization *)

Section SplitHead.

Variable sep : ascii.

Lemma split_head_no_sep s : Str.mem sep (Str.split_head sep s) = false.
Proof.
  induction s as [|c r IH]; simpl; trivial.
  destruct (Ascii.eqb c sep) eqn:E; simpl; trivial.
  now rewrite E.
Qed.

Lemma split_head_fixed s : Str.mem sep s = false -> Str.split_head sep s = s.
Proof.
  induction s as [|c r IH]; simpl; trivial.
  intros H. apply orb_false_iff in H as [E M].
  rewrite E. now rewrite IH.
Qed.

(** Cutting at [sep] brings in no character that was not there. *)
Lemma split_head_keeps_absent c s :
  Str.mem c s = false -> Str.mem c (Str.split_head sep s) = false.
Proof.
  induction s as [|d r IH]; simpl; trivial.
  intros H. apply orb_false_iff in H as [E M].
  destruct (Ascii.eqb d sep); simpl; trivial.
  now rewrite E, IH.
Qed.

End SplitHead.

Lemma normalize_url_clean url :
  Str.mem "?" (normalize_url url) = false /\ Str.mem "#" (normalize_url url) = false.
Proof.
  unfold normalize_url. split.
  - apply split_head_keeps_absent, split_head_no_sep.
  - apply split_head_no_sep.
Qed.

(** C7. Normalizing a URL (cut at the first [?], then cut the result at
    the first [#]) is idempotent; [/api/products?id=1] and [/api/products]
    have the same endpoint, and the average report puts two such records
    in one row. *)
Theorem normalize_url_idempotent :
  (forall url, normalize_url (normalize_url url) = normalize_url url) /\
  normalize_url "/api/products?id=1" = normalize_url "/api/products" /\
  (forall t1 t2,
     AverageReport_generate [entry "/api/products?id=1" t1; entry "/api/products" t2] =
     Ok ([[VStr "/api/products"; VInt 2;
           VStr (F64.format_3f (float_mean [t1; t2]))]],
         ["Endpoint"; "Count"; "Average Time"])).
Proof.
  split; [|split].
  - intros url. destruct (normalize_url_clean url) as [Hq Hh].
    unfold normalize_url at 1.
    rewrite (split_head_fixed _ _ Hq). now apply split_head_fixed.
  - reflexivity.
  - intros t1 t2. reflexivity.
Qed.

(** ** Strategy selection *)

Lemma get_report_strategy_known :
  get_report_strategy "average" = Some AverageReport /\
  get_report_strategy "user_agent" = Some UserAgentReport.
Proof. split; reflexivity. Qed.

Lemma get_report_strategy_unknown r :
  get_report_strategy r = None <-> r <> "average" /\ r <> "user_agent".
Proof.
  unfold get_report_strategy, strategies, lookup.
  destruct (String.eqb_spec "average" r) as [<-|Ha].
  - split; [discriminate | intros [H _]; now elim H].
  - destruct (String.eqb_spec "user_agent" r) as [<-|Hu].
    + split; [discriminate | intros [_ H]; now elim H].
    + split; [intros _; split; congruence | trivial].
Qed.

(** A namespace that [parse_args] returns names one of the two reports,
    and nothing was printed or opened to obtain it. *)
Lemma parse_args_checked argv args t :
  parse_args argv = (Ok args, t) ->
  t = [] /\ (report args = "average" \/ report args = "user_agent") /\ file args <> [].
Proof.
  unfold parse_args, argparse_error, raise, ret.
  destruct (opt_report argv) as [r|]; [|destruct (opt_file argv) as [[|? ?]|]; discriminate].
  destruct (existsb (String.eqb r) report_choices) eqn:E; [|discriminate].
  destruct (opt_file argv) as [[|p ps]|]; try discriminate.
  intros [= <- <-]. simpl. repeat split; try discriminate.
  simpl in E. rewrite orb_false_r in E. apply orb_true_iff in E.
  destruct E as [E|E]; apply String.eqb_eq in E; auto.
Qed.

(** The guard inside [main] comes after the reading: given a namespace
    with an unknown report name (which [parse_args] never returns), [run]
    reads the logs first and raises only when the reading succeeded. *)
Lemma run_guard_after_reading fs args :
  get_report_strategy (report args) = None ->
  run fs args =
  match read_logs fs (file args) (date args) with
  | (Ok _, t) => (Raise ValueError, t)
  | (Raise e, t) => (Raise e, t)
  end.
Proof.
  intros H. unfold run, bind. rewrite H.
  destruct (read_logs fs (file args) (date args)) as [[logs|e] t]; trivial.
  unfold raise. now rewrite app_nil_r.
Qed.



(** ** The fuel of the JSON decoder *)

Lemma skip_ws_length cs : (List.length (Json.skip_ws cs) <= List.length cs)%nat.
Proof.
  induction cs as [|c r IH]; cbn [Json.skip_ws List.length]; trivial.
  destruct (Json.is_ws c); cbn [List.length]; lia.
Qed.

Lemma skip_ws_cons cs d r :
  Json.skip_ws cs = d :: r -> (List.length r < List.length cs)%nat.
Proof.
  intros H. assert (L := skip_ws_length cs). rewrite H in L. cbn [List.length] in L. lia.
Qed.

Lemma scanstring_length n :
  forall cs acc s r,
    (List.length cs <= n)%nat ->
    Json.scanstring cs acc = Some (s, r) -> (List.length r < List.length cs)%nat.
Proof.
  induction n as [|n IH]; intros cs acc s r Hn.
  - destruct cs; [discriminate | cbn [List.length] in Hn; lia].
  - destruct cs as [|c cs]; [discriminate|]. cbn [Json.scanstring List.length] in *.
    destruct (Ascii.eqb c Json.quote); [intros [= _ <-]; lia|].
    destruct (Ascii.eqb c "\").
    + destruct cs as [|e r1]; [discriminate|]. cbn [List.length] in *.
      destruct (Json.simple_escape e).
      * intros H. apply IH in H; lia.
      * destruct (Ascii.eqb e "u"); [|discriminate].
        destruct r1 as [|h1 [|h2 [|h3 [|h4 r2]]]]; try discriminate.
        cbn [List.length] in *.
        destruct (Json.hex4 h1 h2 h3 h4) as [hi|]; [|discriminate].
        destruct (if (55296 <=? hi) && (hi <=? 56319) then Json.low_surrogate r2 else None).
        -- destruct r2 as [|a1 [|a2 [|a3 [|a4 [|a5 [|a6 r3]]]]]];
             cbn [List.length] in *; intros H; apply IH in H; cbn [List.length] in *; lia.
        -- intros H. apply IH in H; lia.
    + destruct (N_of_ascii c <? 32)%N; [discriminate|].
      intros H. apply IH in H; lia.
Qed.

Lemma digits_length cs v n v' n' r :
  Json.digits cs v n = (v', n', r) -> (List.length r <= List.length cs)%nat.
Proof.
  revert v n. induction cs as [|c cs IH]; intros v n; cbn [Json.digits List.length].
  - intros [= _ _ <-]. trivial.
  - destruct (Str.is_digit c).
    + intros H. apply IH in H. lia.
    + intros [= _ _ <-]. trivial.
Qed.

Lemma strip_prefix_length p cs r :
  Json.strip_prefix p cs = Some r ->
  (List.length r + String.length p = List.length cs)%nat.
Proof.
  revert cs. induction p as [|c p IH]; intros cs; cbn [Json.strip_prefix String.length].
  - intros [= <-]. lia.
  - destruct cs as [|d cs]; [discriminate|]. cbn [List.length].
    destruct (Ascii.eqb c d); [|discriminate]. intros H. apply IH in H. lia.
Qed.

Lemma int_part_length cs i r :
  Json.int_part cs = Some (i, r) -> (List.length r < List.length cs)%nat.
Proof.
  unfold Json.int_part. destruct cs as [|c cs]; [discriminate|]. cbn [List.length].
  destruct (Ascii.eqb c "0"); [intros [= _ <-]; lia|].
  destruct (Str.is_digit c); [|discriminate].
  destruct (Json.digits cs (Str.digit_val c) 1) as [[v' n'] r'] eqn:D.
  apply digits_length in D. intros [= _ <-]. lia.
Qed.

Lemma frac_part_length cs i m n r :
  Json.frac_part cs i = Some (m, n, r) -> (List.length r <= List.length cs)%nat.
Proof.
  unfold Json.frac_part. destruct cs as [|c [|d cs]]; try discriminate.
  destruct (Ascii.eqb c "." && Str.is_digit d); [|discriminate].
  intros [= H]. apply digits_length in H. cbn [List.length]. lia.
Qed.

Lemma exp_part_length cs e r :
  Json.exp_part cs = Some (e, r) -> (List.length r <= List.length cs)%nat.
Proof.
  unfold Json.exp_part. destruct cs as [|c cs]; [discriminate|].
  destruct (Ascii.eqb (Str.lower c) "e"); [|discriminate].
  set (sg := match cs with
             | s :: r' => if Ascii.eqb s "-" then (true, r')
                          else if Ascii.eqb s "+" then (false, r') else (false, cs)
             | [] => (false, cs)
             end).
  assert (G : (List.length (snd sg) <= List.length cs)%nat).
  { subst sg. destruct cs as [|s cs]; trivial.
    destruct (Ascii.eqb s "-"); [cbn [snd List.length]; lia|].
    destruct (Ascii.eqb s "+"); cbn [snd List.length]; lia. }
  destruct sg as [ng r4]. cbn [snd] in G.
  destruct r4 as [|d r4]; [discriminate|]. destruct (Str.is_digit d); [|discriminate].
  destruct (Json.digits r4 (Str.digit_val d) 1) as [[v' n'] r'] eqn:D.
  apply digits_length in D. cbn [List.length] in *. intros [= _ <-]. lia.
Qed.

Lemma number_length cs v r :
  Json.number cs = Some (v, r) -> (List.length r < List.length cs)%nat.
Proof.
  unfold Json.number.
  set (sign := match cs with
               | c :: r' => if Ascii.eqb c "-" then (true, r') else (false, cs)
               | [] => (false, cs)
               end).
  assert (S : (List.length (snd sign) <= List.length cs)%nat).
  { subst sign. destruct cs as [|c cs]; trivial.
    destruct (Ascii.eqb c "-"); cbn [snd List.length]; lia. }
  destruct sign as [neg r0]. cbn [snd] in S.
  destruct (Json.int_part r0) as [[i r1]|] eqn:I; [|discriminate].
  apply int_part_length in I.
  destruct (Json.frac_part r1 i) as [[[m n] r2]|] eqn:Fr.
  - apply frac_part_length in Fr.
    destruct (Json.exp_part r2) as [[e r3]|] eqn:E.
    + apply exp_part_length in E. intros [= _ <-]. lia.
    + intros [= _ <-]. lia.
  - destruct (Json.exp_part r1) as [[e r3]|] eqn:E.
    + apply exp_part_length in E. intros [= _ <-]. lia.
    + intros [= _ <-]. lia.
Qed.

Lemma scalar_length cs v r :
  Json.scalar cs = Some (v, r) -> (List.length r < List.length cs)%nat.
Proof.
  unfold Json.scalar.
  repeat match goal with
         | |- context [Json.strip_prefix ?p cs] =>
             let E := fresh "E" in
             destruct (Json.strip_prefix p cs) eqn:E;
             [apply strip_prefix_length in E; cbn [String.length] in E;
              intros [= _ <-]; lia|]
         | |- context [Json.number cs] =>
             let E := fresh "E" in
             destruct (Json.number cs) as [[? ?]|] eqn:E;
             [apply number_length in E; intros [= _ <-]; lia|]
         end.
  discriminate.
Qed.

(** What a call with some fuel returns, a call with at least as much fuel
    as it has characters to read returns too; and it reads at least one
    character. *)
Lemma parse_fuel F :
  (forall cs v r, Json.parse_value F cs = Some (v, r) ->
     (List.length r < List.length cs)%nat /\
     forall f, (List.length cs - List.length r <= f)%nat ->
               Json.parse_value f cs = Some (v, r)) /\
  (forall cs acc v r, Json.parse_members F cs acc = Some (v, r) ->
     (List.length r < List.length cs)%nat /\
     forall f, (List.length cs - List.length r <= f)%nat ->
               Json.parse_members f cs acc = Some (v, r)) /\
  (forall cs acc v r, Json.parse_elements F cs acc = Some (v, r) ->
     (List.length r < List.length cs)%nat /\
     forall f, (List.length cs - List.length r <= f)%nat ->
               Json.parse_elements f cs acc = Some (v, r)).
Proof.
  induction F as [|F (IHv & IHm & IHe)]; [repeat split; discriminate|].
  split; [|split].
  - intros cs v r. cbn [Json.parse_value].
    destruct cs as [|c cs]; [discriminate|]. cbn [List.length].
    destruct (Ascii.eqb c Json.quote) eqn:Q.
    { destruct (Json.scanstring cs []) as [[s r']|] eqn:S; [|discriminate].
      apply (@scanstring_length (List.length cs)) in S as L; trivial.
      intros [= <- <-]. split; [lia|]. intros [|f] Hf; [lia|].
      cbn [Json.parse_value]. now rewrite Q, S. }
    destruct (Ascii.eqb c "{") eqn:B.
    { destruct (Json.skip_ws cs) as [|d r'] eqn:W; [discriminate|].
      apply skip_ws_cons in W as L.
      destruct (Ascii.eqb d "}") eqn:D.
      - intros [= <- <-]. split; [lia|]. intros [|f] Hf; [lia|].
        cbn [Json.parse_value]. now rewrite Q, B, W, D.
      - intros H. destruct (IHm _ _ _ _ H) as [L' G]. cbn [List.length] in *.
        split; [lia|]. intros [|f] Hf; [lia|].
        cbn [Json.parse_value]. rewrite Q, B, W, D. apply G. lia. }
    destruct (Ascii.eqb c "[") eqn:K.
    { destruct (Json.skip_ws cs) as [|d r'] eqn:W; [discriminate|].
      apply skip_ws_cons in W as L.
      destruct (Ascii.eqb d "]") eqn:D.
      - intros [= <- <-]. split; [lia|]. intros [|f] Hf; [lia|].
        cbn [Json.parse_value]. now rewrite Q, B, K, W, D.
      - intros H. destruct (IHe _ _ _ _ H) as [L' G]. cbn [List.length] in *.
        split; [lia|]. intros [|f] Hf; [lia|].
        cbn [Json.parse_value]. rewrite Q, B, K, W, D. apply G. lia. }
    intros H. apply scalar_length in H as L. cbn [List.length] in L.
    split; [lia|]. intros [|f] Hf; [lia|].
    cbn [Json.parse_value]. now rewrite Q, B, K.
  - intros cs acc v r. cbn [Json.parse_members].
    destruct cs as [|c cs]; [discriminate|]. cbn [List.length].
    destruct (Ascii.eqb c Json.quote) eqn:Q; [|discriminate].
    destruct (Json.scanstring cs []) as [[k r1]|] eqn:S; [|discriminate].
    apply (@scanstring_length (List.length cs)) in S as L1; trivial.
    destruct (Json.skip_ws r1) as [|colon r2] eqn:W1; [discriminate|].
    apply skip_ws_cons in W1 as L2.
    destruct (Ascii.eqb colon ":") eqn:C; [|discriminate].
    assert (L3 := skip_ws_length r2).
    destruct (Json.parse_value F (Json.skip_ws r2)) as [[w r3]|] eqn:V; [|discriminate].
    destruct (IHv _ _ _ V) as [L4 G4].
    destruct (Json.skip_ws r3) as [|d r4] eqn:W3; [discriminate|].
    apply skip_ws_cons in W3 as L5.
    destruct (Ascii.eqb d "}") eqn:D.
    { intros [= <- <-]. split; [lia|]. intros [|f] Hf; [lia|].
      cbn [Json.parse_members]. rewrite Q, S, W1, C, G4 by lia. now rewrite W3, D. }
    destruct (Ascii.eqb d ",") eqn:M; [|discriminate].
    intros H. destruct (IHm _ _ _ _ H) as [L6 G6].
    assert (L7 := skip_ws_length r4).
    split; [lia|]. intros [|f] Hf; [lia|].
    cbn [Json.parse_members]. rewrite Q, S, W1, C, G4 by lia. rewrite W3, D, M.
    apply G6. lia.
  - intros cs acc v r. cbn [Json.parse_elements].
    destruct (Json.parse_value F cs) as [[w r1]|] eqn:V; [|discriminate].
    destruct (IHv _ _ _ V) as [L1 G1].
    destruct (Json.skip_ws r1) as [|d r2] eqn:W; [discriminate|].
    apply skip_ws_cons in W as L2.
    destruct (Ascii.eqb d "]") eqn:D.
    { intros [= <- <-]. split; [lia|]. intros [|f] Hf; [lia|].
      cbn [Json.parse_elements]. rewrite G1 by lia. now rewrite W, D. }
    destruct (Ascii.eqb d ",") eqn:M; [|discriminate].
    intros H. destruct (IHe _ _ _ _ H) as [L3 G3].
    assert (L4 := skip_ws_length r2).
    split; [lia|]. intros [|f] Hf; [lia|].
    cbn [Json.parse_elements]. rewrite G1 by lia. rewrite W, D, M.
    apply G3. lia.
Qed.

(** The fuel [json.loads] is given is enough: more fuel decodes nothing
    more and nothing else. *)
Lemma loads_fuel_enough cs F :
  (2 + List.length cs <= F)%nat ->
  Json.parse_value F cs = Json.parse_value (2 + List.length cs) cs.
Proof.
  intros H. destruct (Json.parse_value F cs) as [[v r]|] eqn:E.
  - destruct (proj1 (parse_fuel F) _ _ _ E) as [L G]. symmetry. apply G. lia.
  - destruct (Json.parse_value (2 + List.length cs) cs) as [[v r]|] eqn:E'; trivial.
    destruct (proj1 (parse_fuel _) _ _ _ E') as [L G].
    rewrite G in E by lia. discriminate.
Qed.

(** ** The reader *)

Lemma bind_assoc {A B C} (m : io A) (f : A -> io B) (g : B -> io C) :
  bind (bind m f) g = bind m (fun a => bind (f a) g).
Proof.
  destruct m as [[a|e] t]; simpl; trivial.
  destruct (f a) as [[b|e] t1]; simpl; trivial.
  destruct (g b) as [r t2]. now rewrite app_assoc.
Qed.

Lemma bind_ret_l {A B} (a : A) (f : A -> io B) : bind (ret a) f = f a.
Proof. unfold bind, ret. now destruct (f a). Qed.

Lemma for_each_app {X S} (xs ys : list X) (body : S -> X -> io S) s :
  for_each (xs ++ ys) body s = bind (for_each xs body s) (for_each ys body).
Proof.
  revert s. induction xs as [|x xs IH]; intros s; cbn [for_each app].
  - now rewrite bind_ret_l.
  - rewrite bind_assoc. unfold bind at 1 3.
    destruct (body s x) as [[s'|e] t]; trivial. now rewrite IH.
Qed.

(** A loop whose body returns for every element returns, with the
    events of the rounds in order. *)
Lemma for_each_ok {X S} (xs : list X) (body : S -> X -> io S)
  (next : S -> X -> S) (seen : X -> list event) s :
  (forall s x, In x xs -> body s x = (Ok (next s x), seen x)) ->
  for_each xs body s = (Ok (fold_left next xs s), flat_map seen xs).
Proof.
  revert s. induction xs as [|x xs IH]; intros s H; cbn [for_each]; trivial.
  unfold bind. rewrite (H s x (or_introl eq_refl)).
  rewrite IH by (intros; apply H; now right). reflexivity.
Qed.

(** A loop that raises does so in one of its rounds. *)
Lemma for_each_raise_inv {X S} (xs : list X) (body : S -> X -> io S) s e t :
  for_each xs body s = (Raise e, t) ->
  exists x s' t', In x xs /\ body s' x = (Raise e, t').
Proof.
  revert s t. induction xs as [|x xs IH]; intros s t; cbn [for_each].
  - discriminate.
  - unfold bind. destruct (body s x) as [[s'|e'] t1] eqn:E.
    + destruct (for_each xs body s') as [r t2] eqn:F. intros [= -> <-].
      destruct (IH _ _ F) as (y & s2 & t3 & Hy & Hb).
      exists y, s2, t3. split; [now right | trivial].
    + intros [= <- <-]. exists x, s, t1. split; [now left | trivial].
Qed.

(** A loop with a round that raises whatever the state raises. *)
Lemma for_each_raises {X S} (xs : list X) (body : S -> X -> io S) x :
  In x xs ->
  (forall s, exists e t, body s x = (Raise e, t)) ->
  forall s, exists e t, for_each xs body s = (Raise e, t).
Proof.
  intros Hin Hx. induction xs as [|y xs IH]; [destruct Hin|].
  intros s. cbn [for_each]. unfold bind.
  destruct (body s y) as [[s'|e] t] eqn:E.
  - destruct Hin as [->|Hin].
    + destruct (Hx s) as (e & t' & F). congruence.
    + destruct (IH Hin s') as (e & t' & F). rewrite F. eauto.
  - eauto.
Qed.

(** The events of a loop are those of its rounds. *)
Lemma for_each_events {X S} (P : event -> Prop) (xs : list X) (body : S -> X -> io S) :
  (forall s x, In x xs -> Forall P (snd (body s x))) ->
  forall s, Forall P (snd (for_each xs body s)).
Proof.
  induction xs as [|x xs IH]; intros H s; cbn [for_each].
  - constructor.
  - unfold bind. specialize (H s x (or_introl eq_refl)) as Hx.
    destruct (body s x) as [[s'|e] t]; simpl in Hx; trivial.
    assert (Hr := IH (fun s x Hi => H s x (or_intror Hi)) s').
    destruct (for_each xs body s') as [r t']. simpl in *.
    apply Forall_app. now split.
Qed.

(** *** Which exceptions the library calls raise *)

Lemma loads_error line e : Json.loads line = Raise e -> e = JSONDecodeError.
Proof.
  unfold Json.loads.
  destruct (Json.parse_value _ _) as [[v r]|]; [|congruence].
  destruct (Json.skip_ws r); congruence.
Qed.

Lemma decodes_false line : decodes line = false <-> Json.loads line = Raise JSONDecodeError.
Proof.
  unfold decodes. destruct (Json.loads line) as [v|e] eqn:E.
  - split; discriminate.
  - rewrite (loads_error _ E). tauto.
Qed.

Lemma strptime_date_error s e : Datetime.strptime_date s = Raise e -> e = ValueError.
Proof.
  unfold Datetime.strptime_date.
  repeat match goal with
         | |- context [match ?x with _ => _ end] => destruct x
         end; congruence.
Qed.

Lemma fromisoformat_error s e : Datetime.fromisoformat s = Raise e -> e = ValueError.
Proof.
  unfold Datetime.fromisoformat.
  repeat match goal with
         | |- context [match ?x with _ => _ end] => destruct x
         | |- context [if ?x then _ else _] => destruct x
         end; congruence.
Qed.

Lemma isoformat_date_error x e :
  Datetime.isoformat_date x = Raise e -> e = TypeError \/ e = ValueError.
Proof.
  destruct x; simpl; try (intros [= <-]; now left).
  destruct (Datetime.fromisoformat s) eqn:E; simpl; [discriminate|].
  intros [= <-]. right. eapply fromisoformat_error, E.
Qed.

Lemma timestamp_date_error v e :
  timestamp_date v = Raise e ->
  e = KeyError "@timestamp" \/ e = TypeError \/ e = ValueError.
Proof.
  unfold timestamp_date, subscript.
  destruct v; simpl; try (intros [= <-]; auto).
  destruct (dict_get "@timestamp" d) as [ts|]; simpl.
  - intros H. right. now apply isoformat_date_error in H.
  - intros [= <-]. now left.
Qed.

(** A record with a timestamp fault has no date. *)
Lemma timestamp_fault_raises v :
  timestamp_fault v -> exists e, timestamp_date v = Raise e.
Proof.
  intros [d H|d ts e H1 H2]; unfold timestamp_date; simpl.
  - rewrite H. simpl. eauto.
  - rewrite H1. simpl. eauto.
Qed.

Lemma parse_date_filter_error s e :
  parse_date_filter s = Raise e -> e = ValueError.
Proof.
  destruct s as [[|c s]|]; simpl; try discriminate.
  destruct (Datetime.strptime_date (String c s)) eqn:E; simpl; [discriminate|].
  intros [= <-]. eapply strptime_date_error, E.
Qed.

(** *** One line *)

(** A line that does not decode: the message, and the list unchanged. *)
Lemma read_line_invalid date_filter logs line :
  decodes line = false ->
  read_line date_filter logs line = (Ok logs, [EvPrint (skip_message line)]).
Proof.
  intros H. apply decodes_false in H. unfold read_line. now rewrite H.
Qed.

(** Without a filter a decoded value is appended, whatever it is. *)
Lemma read_line_unfiltered logs line v :
  Json.loads line = Ok v ->
  read_line None logs line = (Ok (logs ++ [v]), []).
Proof. intros H. unfold read_line. now rewrite H. Qed.

(** With the filter on, a dated record is kept exactly when its date is
    the filter's; nothing is printed either way. *)
Lemma read_line_dated d logs line v d' :
  Json.loads line = Ok v ->
  timestamp_date v = Ok d' ->
  read_line (Some d) logs line =
  (Ok (if Datetime.date_eqb d' d then logs ++ [v] else logs), []).
Proof.
  intros H T. unfold read_line. rewrite H.
  unfold timestamp_date in T. cbn [lift bind app].
  destruct (subscript v "@timestamp") as [ts|e]; [|discriminate]. simpl in T.
  cbn [bind app]. rewrite T. cbn [bind app].
  now destruct (Datetime.date_eqb d' d).
Qed.

(** With the filter on, the error of a record without a usable timestamp
    leaves the [try] statement: its handler is for decoding errors. *)
Lemma read_line_fault d logs line v e :
  Json.loads line = Ok v ->
  timestamp_date v = Raise e ->
  read_line (Some d) logs line = (Raise e, []).
Proof.
  intros H T. unfold read_line. rewrite H.
  assert (N : e <> JSONDecodeError).
  { destruct (timestamp_date_error _ T) as [->|[->| ->]]; discriminate. }
  unfold timestamp_date in T. cbn [lift bind app].
  destruct (subscript v "@timestamp") as [ts|e']; simpl in T.
  - cbn [bind app]. rewrite T. cbn [bind app try_except_JSONDecodeError].
    destruct e; trivial. now elim N.
  - injection T as ->. cbn [bind app try_except_JSONDecodeError].
    destruct e; trivial. now elim N.
Qed.

(** *** A whole run without a fatal line *)

Lemma decoded_app a b : decoded (a ++ b) = decoded a ++ decoded b.
Proof. apply flat_map_app. Qed.

Lemma kept_app f a b : kept f (a ++ b) = kept f a ++ kept f b.
Proof.
  destruct f as [d|]; simpl; rewrite decoded_app; trivial. apply filter_app.
Qed.



Lemma read_line_passable f logs line :
  passable f line = true ->
  read_line f logs line = (Ok (logs ++ kept f [line]), line_events line).
Proof.
  intros P. unfold line_events. destruct (decodes line) eqn:D.
  - unfold decodes in D. destruct (Json.loads line) as [v|e] eqn:E; [|discriminate].
    destruct f as [d|]; simpl in *.
    + unfold harmless in P. rewrite E in P.
      destruct (timestamp_date v) as [d'|e] eqn:T; [|discriminate].
      rewrite (read_line_dated d logs _ E T).
      unfold decoded, on_date. simpl. rewrite E. simpl. rewrite T.
      destruct (Datetime.date_eqb d' d); trivial. now rewrite app_nil_r.
    + rewrite (read_line_unfiltered logs _ E).
      unfold decoded. simpl. now rewrite E.
  - rewrite (read_line_invalid f logs _ D).
    apply decodes_false in D.
    assert (K : kept f [line] = []).
    { destruct f; unfold kept, decoded; simpl; now rewrite D. }
    now rewrite K, app_nil_r.
Qed.

Lemma line_events_filter ls :
  flat_map line_events ls =
  map (fun l => EvPrint (skip_message l)) (filter (fun l => negb (decodes l)) ls).
Proof.
  induction ls as [|l ls IH]; simpl; trivial.
  unfold line_events at 1. destruct (decodes l); simpl; now rewrite IH.
Qed.

Lemma read_lines_passable f ls logs :
  forallb (passable f) ls = true ->
  for_each ls (read_line f) logs = (Ok (logs ++ kept f ls), flat_map line_events ls).
Proof.
  intros H.
  rewrite (@for_each_ok _ _ ls (read_line f) (fun s l => s ++ kept f [l]) line_events).
  - f_equal. f_equal. clear H. revert logs.
    induction ls as [|l ls IH]; intros logs; simpl.
    + destruct f; simpl; now rewrite app_nil_r.
    + rewrite IH, <- app_assoc. f_equal.
      change (l :: ls) with ([l] ++ ls). now rewrite kept_app.
  - intros s x Hx. apply read_line_passable.
    rewrite forallb_forall in H. now apply H.
Qed.

Lemma read_file_passable fs f logs path :
  readable fs path = true ->
  forallb (passable f) (lines_of fs path) = true ->
  read_file fs f logs path = (Ok (logs ++ kept f (lines_of fs path)), file_events fs path).
Proof.
  unfold file_events, readable, lines_of, read_file, open_lines.
  destruct (fs path) as [text|]; [|discriminate]. intros _ H.
  unfold emit, ret, bind. cbn [app].
  rewrite (read_lines_passable f _ logs H).
  now rewrite line_events_filter.
Qed.

(** When every file can be read and no line is fatal, the reader returns
    the kept records of all lines in order; what is seen is the opening
    of each file and one message for each line that does not decode. *)
Lemma read_logs_passable fs paths date_filter f :
  parse_date_filter date_filter = Ok f ->
  forallb (readable fs) paths = true ->
  forallb (passable f) (all_lines fs paths) = true ->
  read_logs fs paths date_filter =
  (Ok (kept f (all_lines fs paths)), flat_map (file_events fs) paths).
Proof.
  intros Hf Hr Hp. unfold read_logs. rewrite Hf. unfold lift, bind at 1.
  rewrite (@for_each_ok _ _ paths (read_file fs f)
             (fun s p => s ++ kept f (lines_of fs p)) (file_events fs)).
  - cbn [app]. f_equal. f_equal.
    assert (G : forall logs, fold_left (fun s p => s ++ kept f (lines_of fs p)) paths logs
                             = logs ++ kept f (all_lines fs paths)).
    { clear. induction paths as [|p ps IH]; intros logs; simpl.
      - destruct f; simpl; now rewrite app_nil_r.
      - rewrite IH, <- app_assoc. f_equal. unfold all_lines. now rewrite kept_app. }
    apply (G []).
  - intros s p Hin. apply read_file_passable.
    + rewrite forallb_forall in Hr. now apply Hr.
    + rewrite forallb_forall in *. intros l Hl. apply Hp.
      unfold all_lines. apply in_flat_map. eauto.
Qed.

(** *** What a run of the reader can raise and show *)

Lemma read_line_error f logs line e t :
  read_line f logs line = (Raise e, t) -> e <> JSONDecodeError.
Proof.
  unfold read_line, try_except_JSONDecodeError.
  match goal with |- context [match ?b with _ => _ end] => destruct b as [[a|e'] t'] end.
  - intros [= <- <-].
  - destruct e'; cbn [emit ret bind app]; intros [= <- <-]; discriminate.
Qed.

Lemma read_file_error fs f logs path e t :
  read_file fs f logs path = (Raise e, t) -> e <> JSONDecodeError.
Proof.
  unfold read_file, open_lines, emit, bind at 2.
  destruct (fs path) as [text|]; cbn [ret raise app bind].
  - destruct (for_each (Str.lines text) (read_line f) logs) as [[l|e'] t'] eqn:E;
      intros [= <- <-].
    destruct (for_each_raise_inv _ _ _ E) as (x & s' & t2 & _ & H).
    eapply read_line_error, H.
  - intros [= <- <-]. discriminate.
Qed.

Lemma read_logs_error fs paths date_filter e t :
  read_logs fs paths date_filter = (Raise e, t) -> e <> JSONDecodeError.
Proof.
  unfold read_logs, lift, bind.
  destruct (parse_date_filter date_filter) as [f|e'] eqn:P.
  - destruct (for_each paths (read_file fs f) []) as [[l|e2] t2] eqn:E; intros [= <- <-].
    destruct (for_each_raise_inv _ _ _ E) as (x & s' & t3 & _ & H).
    eapply read_file_error, H.
  - intros [= <- <-]. rewrite (parse_date_filter_error _ P). discriminate.
Qed.

Lemma read_line_no_table f logs line : no_table (snd (read_line f logs line)).
Proof.
  unfold read_line, try_except_JSONDecodeError.
  assert (B : forall b : io (list value), snd b = [] ->
              no_table (snd match b with
                            | (Raise JSONDecodeError, t) =>
                                let '(r, t') := (emit (EvPrint (skip_message line)) ;;; ret logs)
                                in (r, t ++ t')
                            | r => r
                            end)).
  { intros [[a|e] t] E; simpl in E; subst t.
    - intros ev [].
    - destruct e; cbn; intros ev H; try destruct H as [<-|[]]; trivial; destruct H. }
  apply B. clear B.
  destruct (Json.loads line) as [v|e]; trivial. cbn [lift bind app].
  destruct f as [d|]; trivial.
  destruct (subscript v "@timestamp") as [ts|e]; trivial. cbn [lift bind app].
  destruct (Datetime.isoformat_date ts) as [d'|e]; trivial. cbn [bind app].
  now destruct (negb _).
Qed.

Lemma no_table_Forall t : no_table t <-> Forall (fun ev => is_table ev = false) t.
Proof. unfold no_table. now rewrite Forall_forall. Qed.

Lemma read_file_no_table fs f logs path : no_table (snd (read_file fs f logs path)).
Proof.
  unfold read_file, open_lines, emit, bind at 2.
  destruct (fs path) as [text|]; cbn [ret raise app bind].
  - assert (H := @for_each_events _ _ (fun ev => is_table ev = false)
                   (Str.lines text) (read_line f)
                   (fun s x _ => proj1 (no_table_Forall _) (read_line_no_table f s x)) logs).
    destruct (for_each (Str.lines text) (read_line f) logs) as [r t].
    apply no_table_Forall. simpl in *. now constructor.
  - intros ev [<-|[]]. reflexivity.
Qed.

Lemma read_logs_no_table fs paths date_filter :
  no_table (snd (read_logs fs paths date_filter)).
Proof.
  unfold read_logs, lift, bind.
  destruct (parse_date_filter date_filter) as [f|e]; [|intros ev []].
  assert (H := @for_each_events _ _ (fun ev => is_table ev = false)
                 paths (read_file fs f)
                 (fun s x _ => proj1 (no_table_Forall _) (read_file_no_table fs f s x)) []).
  destruct (for_each paths (read_file fs f) []) as [r t].
  now apply no_table_Forall.
Qed.

(** A fatal line stops the reading of its file, whatever was read before. *)
Lemma read_file_fatal fs d path line v e0 :
  In line (lines_of fs path) ->
  Json.loads line = Ok v ->
  timestamp_date v = Raise e0 ->
  forall logs, exists e t, read_file fs (Some d) logs path = (Raise e, t).
Proof.
  unfold lines_of, read_file, open_lines, emit, bind at 2.
  destruct (fs path) as [text|]; [|intros []]. cbn [ret app bind].
  intros Hin E T logs.
  destruct (@for_each_raises _ _ (Str.lines text) (read_line (Some d)) line Hin
              (fun s => ex_intro _ e0 (ex_intro _ [] (read_line_fault d s _ E T))) logs)
    as (e & t & F).
  rewrite F. eauto.
Qed.

(** *** What a returned list is made of *)

Lemma for_each_invariant {X S} (I : S -> Prop) (xs : list X) (body : S -> X -> io S) :
  (forall s x s' t, In x xs -> I s -> body s x = (Ok s', t) -> I s') ->
  forall s r t, I s -> for_each xs body s = (Ok r, t) -> I r.
Proof.
  induction xs as [|x xs IH]; intros H s r t Hs; cbn [for_each].
  - now intros [= <- _].
  - unfold bind. destruct (body s x) as [[s'|e] t1] eqn:E; [|discriminate].
    destruct (for_each xs body s') as [r' t2] eqn:F. intros [= -> _].
    eapply (IH (fun s x s' t Hi => H s x s' t (or_intror Hi))); [|exact F].
    eapply H; [now left | exact Hs | exact E].
Qed.

(** A round of the reader leaves the list as it is or appends the value
    of its line; with the filter on, an appended value is a mapping. *)
Lemma read_line_ok_inv f logs line logs' t :
  read_line f logs line = (Ok logs', t) ->
  logs' = logs \/
  exists v, Json.loads line = Ok v /\ logs' = logs ++ [v] /\
            (f <> None -> is_mapping v = true).
Proof.
  destruct (Json.loads line) as [v|e] eqn:E.
  - destruct f as [d|].
    + destruct (timestamp_date v) as [d'|e] eqn:T.
      * rewrite (read_line_dated d logs _ E T).
        destruct (Datetime.date_eqb d' d); intros H; injection H as <- _; [|now left].
        right. exists v. repeat split.
        destruct v; trivial; discriminate.
      * rewrite (read_line_fault d logs _ E T). discriminate.
    + rewrite (read_line_unfiltered logs _ E). intros H. injection H as <- _.
      right. exists v. repeat split. congruence.
  - rewrite read_line_invalid by (unfold decodes; now rewrite E).
    intros H. injection H as <- _. now left.
Qed.

(** *** The other fatal conditions of the reader *)

(** A filter string that does not parse stops the run before any file is
    opened. *)
Lemma read_logs_bad_filter fs paths s e :
  s <> EmptyString -> Datetime.strptime_date s = Raise e ->
  read_logs fs paths (Some s) = (Raise ValueError, []).
Proof.
  intros N E. unfold read_logs. destruct s as [|c s]; [now elim N|].
  cbn [parse_date_filter]. rewrite E. cbn [obind lift bind].
  now rewrite (strptime_date_error _ E).
Qed.

(** A file that cannot be read stops the run when its turn comes; what
    was read before is lost with it. *)
Lemma read_file_missing fs f logs path :
  fs path = None -> read_file fs f logs path = (Raise (OSError path), [EvOpen path]).
Proof. intros H. unfold read_file, open_lines. now rewrite H. Qed.

(** *** The claims about the reader *)

(** The claim C2 as it is written fails: without a date filter a line
    holding a bare number decodes, and the number is returned. *)
Lemma read_logs_returns_bare_number :
  read_logs Samples.bare_file ["bare.log"] None = (Ok [VInt 42], [EvOpen "bare.log"]) /\
  ~ (forall logs t,
       read_logs Samples.bare_file ["bare.log"] None = (Ok logs, t) ->
       forall v, In v logs -> is_mapping v = true).
Proof.
  assert (E : read_logs Samples.bare_file ["bare.log"] None
              = (Ok [VInt 42], [EvOpen "bare.log"])) by (vm_compute; reflexivity).
  split; [exact E|].
  intros H. specialize (H _ _ E (VInt 42) (or_introl eq_refl)). discriminate.
Qed.

(** C2 (amended). Every element of the list [read_logs] returns is the
    value decoded from one line of one of the files; when a date filter
    is on, every element is a mapping.  Without the filter a decoded
    value that is no mapping is returned like any other. *)
Theorem read_logs_elements fs paths date_filter logs t :
  read_logs fs paths date_filter = (Ok logs, t) ->
  (forall v, In v logs ->
     exists path line, In path paths /\ In line (lines_of fs path) /\ Json.loads line = Ok v) /\
  (forall d, parse_date_filter date_filter = Ok (Some d) ->
     forall v, In v logs -> is_mapping v = true).
Proof.
  intros H. unfold read_logs, lift, bind in H.
  destruct (parse_date_filter date_filter) as [f|e] eqn:P; [|discriminate].
  destruct (for_each paths (read_file fs f) []) as [r t'] eqn:F.
  injection H as -> _.
  set (Q := fun v => (exists path line, In path paths /\ In line (lines_of fs path) /\
                                         Json.loads line = Ok v) /\
                     (f <> None -> is_mapping v = true)).
  assert (G : forall v, In v logs -> Q v).
  { eapply (@for_each_invariant _ _ (fun l => forall v, In v l -> Q v)); [| |exact F].
    - intros s path s' t1 Hpath Hs. unfold read_file, open_lines, emit, bind at 2.
      destruct (fs path) as [text|] eqn:T; cbn [ret raise app bind]; [|discriminate].
      destruct (for_each (Str.lines text) (read_line f) s) as [r2 t2] eqn:F2.
      intros [= -> _].
      eapply (@for_each_invariant _ _ (fun l => forall v, In v l -> Q v)); [|exact Hs|exact F2].
      intros s0 line s1 t3 Hline Hs0 R v Hv.
      destruct (read_line_ok_inv _ _ _ R) as [->|(w & E & -> & M)]; [now apply Hs0|].
      apply in_app_or in Hv as [Hv|[<-|[]]]; [now apply Hs0|].
      split; trivial. exists path, line. unfold lines_of. rewrite T. auto.
    - intros v []. }
  split.
  - intros v Hv. now apply G.
  - intros d [= ->] v Hv. apply G; [trivial | discriminate].
Qed.

Lemma read_logs_elements_witness :
  (forall v, In v [nth 0 Tests.sample_logs VNone; nth 1 Tests.sample_logs VNone;
                   nth 3 Tests.sample_logs VNone] ->
     exists path line, In path ["test.log"] /\ In line (lines_of Tests.log_file path) /\
                       Json.loads line = Ok v) /\
  (forall d, parse_date_filter (Some "2025-06-22") = Ok (Some d) ->
     forall v, In v [nth 0 Tests.sample_logs VNone; nth 1 Tests.sample_logs VNone;
                     nth 3 Tests.sample_logs VNone] ->
               is_mapping v = true).
Proof.
  apply (@read_logs_elements Tests.log_file ["test.log"] (Some "2025-06-22")
           _ [EvOpen "test.log"; EvPrint "Skipping invalid JSON line: invalid json"]).
  vm_compute. reflexivity.
Defined.

Lemma date_eqb_eq a b : Datetime.date_eqb a b = true <-> a = b.
Proof.
  destruct a as [y m d], b as [y' m' d']. unfold Datetime.date_eqb. simpl.
  rewrite !andb_true_iff, !Z.eqb_eq. split.
  - intros [[-> ->] ->]. reflexivity.
  - intros [= -> -> ->]. auto.
Qed.

(** The date the reader compares is the date written in the timestamp:
    the [on] field of the parsed datetime, whatever its offset. *)
Lemma on_date_spec d v :
  on_date d v = true <->
  exists ts dt, subscript v "@timestamp" = Ok (VStr ts) /\
                Datetime.fromisoformat ts = Ok dt /\ Datetime.on dt = d.
Proof.
  unfold on_date, timestamp_date. split.
  - destruct (subscript v "@timestamp") as [x|e]; simpl; [|discriminate].
    destruct x; simpl; try discriminate.
    destruct (Datetime.fromisoformat s) as [dt|e] eqn:F; simpl; [|discriminate].
    intros H. apply date_eqb_eq in H. eauto.
  - intros (ts & dt & -> & F & <-). simpl. rewrite F. simpl. now apply date_eqb_eq.
Qed.

(** C3. With a date filter on, a line that decodes to a record without an
    [@timestamp], or with one that does not parse, raises an error in the
    round that reads it; the error is not a decoding error, so the
    handler of the [try] does not take it: [read_logs] raises, and the run
    ends without a table. *)
Theorem timestamp_fault_is_fatal fs paths s line v :
  s <> EmptyString ->
  In line (all_lines fs paths) ->
  Json.loads line = Ok v ->
  timestamp_fault v ->
  (exists e0, e0 <> JSONDecodeError /\
              forall d logs, read_line (Some d) logs line = (Raise e0, [])) /\
  (exists e t, read_logs fs paths (Some s) = (Raise e, t) /\ e <> JSONDecodeError /\
               forall args, file args = paths -> date args = Some s ->
                            run fs args = (Raise e, t) /\ no_table t).
Proof.
  intros Hs Hin E Hv.
  destruct (timestamp_fault_raises Hv) as (e0 & T). split.
  - exists e0. split.
    + destruct (timestamp_date_error _ T) as [->|[->| ->]]; discriminate.
    + intros d logs. now apply read_line_fault with v.
  - assert (R : exists e t, read_logs fs paths (Some s) = (Raise e, t)).
    { unfold read_logs, lift, bind.
      destruct (parse_date_filter (Some s)) as [f|e] eqn:P; [|eauto].
      assert (exists d, f = Some d) as (d & ->).
      { destruct s as [|c s]; [now elim Hs|]. simpl in P.
        destruct (Datetime.strptime_date (String c s)); [|discriminate].
        injection P as <-. eauto. }
      unfold all_lines in Hin. apply in_flat_map in Hin as (path & Hpath & Hline).
      destruct (@for_each_raises _ _ paths (read_file fs (Some d)) path Hpath
                  (read_file_fatal fs d path _ Hline E T) []) as (e & t & F).
      rewrite F. eauto. }
    destruct R as (e & t & R). exists e, t. split; [exact R|]. split.
    + eapply read_logs_error, R.
    + intros args <- Hd. split.
      * unfold run, bind. now rewrite Hd, R.
      * generalize (read_logs_no_table fs (file args) (Some s)). now rewrite R.
Qed.

Lemma timestamp_fault_is_fatal_witness :
  (exists e0, e0 <> JSONDecodeError /\
              forall d logs, read_line (Some d) logs (Samples.undated_line ++ nl)%string
                             = (Raise e0, [])) /\
  (exists e t, read_logs Samples.undated_file ["undated.log"] (Some "2025-06-22")
               = (Raise e, t) /\ e <> JSONDecodeError /\
               forall args, file args = ["undated.log"] -> date args = Some "2025-06-22" ->
                            run Samples.undated_file args = (Raise e, t) /\ no_table t).
Proof.
  apply (@timestamp_fault_is_fatal Samples.undated_file ["undated.log"] "2025-06-22"
           (Samples.undated_line ++ nl)%string
           (VDict [("url", VStr "/a"); ("response_time", VStr "1")])).
  - discriminate.
  - vm_compute. right. left. reflexivity.
  - vm_compute. reflexivity.
  - apply timestamp_missing. reflexivity.
Defined.

(** C4. With a date filter that parses to the date [d], readable files and
    no fatal line, [read_logs] returns, of the records that decode, exactly
    those whose [@timestamp] parses to a datetime written on the date [d]
    (the date as written, the offset playing no part), in input order;
    the others are dropped without a word: the only messages are those
    for the lines that do not decode. *)
Theorem date_filter_is_exact fs paths s d :
  Datetime.strptime_date s = Ok d ->
  forallb (readable fs) paths = true ->
  forallb harmless (all_lines fs paths) = true ->
  read_logs fs paths (Some s) =
    (Ok (filter (on_date d) (decoded (all_lines fs paths))),
     flat_map (file_events fs) paths) /\
  (forall v, In v (filter (on_date d) (decoded (all_lines fs paths))) <->
             In v (decoded (all_lines fs paths)) /\
             exists ts dt, subscript v "@timestamp" = Ok (VStr ts) /\
                           Datetime.fromisoformat ts = Ok dt /\ Datetime.on dt = d).
Proof.
  intros Hd Hr Hl. split.
  - apply (@read_logs_passable fs paths (Some s) (Some d)); trivial.
    destruct s as [|c s]; [discriminate|]. simpl. now rewrite Hd.
  - intros v. rewrite filter_In, on_date_spec. reflexivity.
Qed.

Lemma date_filter_is_exact_witness :
  read_logs Tests.log_file ["test.log"] (Some "2025-06-22") =
    (Ok (filter (on_date (Datetime.mkdate 2025 6 22))
                (decoded (all_lines Tests.log_file ["test.log"]))),
     flat_map (file_events Tests.log_file) ["test.log"]) /\
  (forall v, In v (filter (on_date (Datetime.mkdate 2025 6 22))
                          (decoded (all_lines Tests.log_file ["test.log"]))) <->
             In v (decoded (all_lines Tests.log_file ["test.log"])) /\
             exists ts dt, subscript v "@timestamp" = Ok (VStr ts) /\
                           Datetime.fromisoformat ts = Ok dt /\
                           Datetime.on dt = Datetime.mkdate 2025 6 22).
Proof.
  apply (@date_filter_is_exact Tests.log_file ["test.log"] "2025-06-22"
           (Datetime.mkdate 2025 6 22)); vm_compute; reflexivity.
Defined.

(** The comparison is on the date as written: 23:30 on 22 June at five
    hours behind UTC is kept by the filter for 22 June and dropped by the
    one for 23 June, its date in UTC. *)
Example date_filter_ignores_offset :
  read_logs Samples.late_file ["late.log"] (Some "2025-06-22") =
    (Ok [VDict [("url", VStr "/a"); ("@timestamp", VStr "2025-06-22T23:30:00-05:00")]],
     [EvOpen "late.log"]) /\
  read_logs Samples.late_file ["late.log"] (Some "2025-06-23") = (Ok [], [EvOpen "late.log"]).
Proof. split; vm_compute; reflexivity. Qed.



(** ** Sorting *)

(** Inserting keeps the head of the list above what was below both the
    old head and the new element. *)
Lemma insert_sorted_head {A} (lt : A -> A -> outcome bool) (R : A -> A -> Prop) x l r y :
  insert_sorted lt x l = Ok r -> R y x -> HdRel R y l -> HdRel R y r.
Proof.
  destruct l as [|w l]; cbn [insert_sorted].
  - intros [= <-] Hx _. now constructor.
  - destruct (lt w x) as [[|]|]; cbn [obind]; [| |discriminate].
    + destruct (insert_sorted lt x l) as [r'|]; cbn [obind]; [|discriminate].
      intros [= <-] _ H. inversion H. now constructor.
    + intros [= <-] Hx _. now constructor.
Qed.

(** A list the sort returns is a rearrangement of the one given,
    whatever the comparison. *)
Lemma insert_sorted_perm {A} (lt : A -> A -> outcome bool) x l r :
  insert_sorted lt x l = Ok r -> Permutation (x :: l) r.
Proof.
  revert r. induction l as [|y l IH]; cbn [insert_sorted]; intros r.
  - now intros [= <-].
  - destruct (lt y x) as [[|]|]; cbn [obind]; [| |discriminate].
    + destruct (insert_sorted lt x l) as [r'|]; cbn [obind]; [|discriminate].
      intros [= <-]. rewrite perm_swap. constructor. now apply IH.
    + now intros [= <-].
Qed.

Lemma sorted_perm {A} (lt : A -> A -> outcome bool) l r :
  sorted lt l = Ok r -> Permutation l r.
Proof.
  revert r. induction l as [|x l IH]; cbn [sorted]; intros r.
  - now intros [= <-].
  - destruct (sorted lt l) as [r'|]; cbn [obind]; [|discriminate].
    intros H. apply insert_sorted_perm in H.
    transitivity (x :: r'); auto.
Qed.

Section Sorting.

Context {A : Type}.
Variable lt : A -> A -> outcome bool.
Variable ltb : A -> A -> bool.
Variable dom : A -> Prop.

(** On the elements in [dom] the comparison returns, and it is
    asymmetric. *)
Hypothesis lt_returns : forall a b, dom a -> dom b -> lt a b = Ok (ltb a b).
Hypothesis ltb_asym : forall a b, ltb a b = true -> ltb b a = false.

Lemma insert_sorted_returns x l :
  dom x -> Forall dom l ->
  exists r, insert_sorted lt x l = Ok r /\
            (Sorted (not_above ltb) l -> Sorted (not_above ltb) r).
Proof.
  intros Hx Hl. induction Hl as [|y l Hy Hl IH]; cbn [insert_sorted].
  - exists [x]. split; auto.
  - rewrite (lt_returns Hy Hx). cbn [obind].
    destruct (ltb y x) eqn:E.
    + destruct IH as (r & Hr & Hs). rewrite Hr. cbn [obind].
      exists (y :: r). split; trivial.
      intros S. apply Sorted_inv in S as [S H].
      constructor; [now apply Hs|].
      eapply insert_sorted_head; [exact Hr | | exact H].
      now apply ltb_asym.
    + exists (x :: y :: l). split; trivial.
      intros S. constructor; trivial. now constructor.
Qed.

Lemma sorted_returns l :
  Forall dom l ->
  exists r, sorted lt l = Ok r /\ Permutation l r /\ Sorted (not_above ltb) r.
Proof.
  induction 1 as [|x l Hx Hl IH]; cbn [sorted].
  - exists []. repeat split; constructor.
  - destruct IH as (r & Hr & Hp & Hs). rewrite Hr. cbn [obind].
    assert (Hd : Forall dom r).
    { rewrite Forall_forall in *. intros z Hz. apply Hl.
      eapply Permutation_in; [apply Permutation_sym, Hp | exact Hz]. }
    destruct (insert_sorted_returns Hx Hd) as (r' & E & Hs').
    exists r'. repeat split; auto.
    transitivity (x :: r); auto. eapply insert_sorted_perm, E.
Qed.

End Sorting.

(** ** The order of strings *)

Lemma string_ltb_asym a b : String.ltb a b = true -> String.ltb b a = false.
Proof.
  unfold String.ltb. rewrite (String.compare_antisym a b).
  now destruct (String.compare b a).
Qed.

Lemma string_ltb_irrefl a : String.ltb a a = false.
Proof.
  destruct (String.ltb a a) eqn:E; trivial.
  now rewrite (string_ltb_asym _ _ E) in E.
Qed.

(** Of two different strings, the one the other is not below is below. *)
Lemma string_ltb_connected a b : a <> b -> String.ltb b a = false -> String.ltb a b = true.
Proof.
  unfold String.ltb. rewrite (String.compare_antisym a b). intros N.
  destruct (String.compare b a) eqn:E; try easy.
  apply String.compare_eq_iff in E. congruence.
Qed.

Lemma string_compare_trans a b c :
  String.compare a b = Lt -> String.compare b c = Lt -> String.compare a c = Lt.
Proof.
  revert b c. induction a as [|x a IH]; intros [|y b] [|z c]; simpl; try easy.
  unfold Ascii.compare.
  destruct (N.compare_spec (N_of_ascii x) (N_of_ascii y)) as [E1|L1|G1]; try easy;
  destruct (N.compare_spec (N_of_ascii y) (N_of_ascii z)) as [E2|L2|G2]; try easy;
  destruct (N.compare_spec (N_of_ascii x) (N_of_ascii z)) as [E3|L3|G3];
    try easy; try lia.
  apply IH.
Qed.

Lemma string_ltb_trans a b c :
  String.ltb a b = true -> String.ltb b c = true -> String.ltb a c = true.
Proof.
  unfold String.ltb. intros H1 H2.
  rewrite (@string_compare_trans a b c); trivial.
  - now destruct (String.compare a b).
  - now destruct (String.compare b c).
Qed.

(** Rows with distinct string keys, each not above the next, are in
    strictly ascending order throughout. *)
Lemma strictly_sorted_rows (ltb : list value -> list value -> bool) rows :
  (forall x y, In x rows -> In y rows ->
     exists s t, first_column x = VStr s /\ first_column y = VStr t /\
                 (s <> t -> ltb x y = String.ltb s t)) ->
  NoDup (map first_column rows) ->
  Sorted (not_above ltb) rows ->
  StronglySorted row_lt rows.
Proof.
  intros K N S.
  assert (T : forall x y z, row_lt x y -> row_lt y z -> row_lt x z).
  { unfold row_lt. intros x y z.
    destruct (first_column x), (first_column y), (first_column z); try easy.
    apply string_ltb_trans. }
  induction rows as [|x rows IH]; [constructor|].
  apply Sorted_inv in S as [S H]. inversion N as [|? ? Nx N']; subst.
  assert (IH' : StronglySorted row_lt rows).
  { apply IH; trivial. intros a b Ha Hb. apply K; now right. }
  constructor; trivial.
  destruct rows as [|y rows]; [constructor|].
  apply HdRel_inv in H.
  assert (L : row_lt x y).
  { destruct (K y x (or_intror (or_introl eq_refl)) (or_introl eq_refl))
      as (t & s & Ey & Ex & O).
    unfold row_lt. rewrite Ex, Ey. unfold not_above in H.
    assert (D : t <> s).
    { intros ->. apply Nx. simpl. left. congruence. }
    rewrite (O D) in H. apply string_ltb_connected; auto. }
  constructor; trivial.
  apply StronglySorted_inv in IH' as [_ F].
  rewrite Forall_forall in *. intros z Hz. eapply T; [exact L | now apply F].
Qed.

(** ** The average report *)

(** *** The dictionary of statistics *)

Lemma lookup_stats_add e t d k :
  lookup k (stats_add e t d) =
  if String.eqb e k
  then Some match lookup e d with
            | Some s => mkstats (count s + 1) (F64.add (total_time s) t)
            | None => mkstats (0 + 1) (F64.add F64.zero t)
            end
  else lookup k d.
Proof.
  induction d as [|[k' s'] d IH]; cbn [stats_add lookup].
  - reflexivity.
  - destruct (String.eqb_spec k' e) as [->|N]; cbn [lookup].
    + destruct (String.eqb_spec e k) as [->|N']; trivial.
    + rewrite IH. destruct (String.eqb_spec k' k) as [->|N'].
      * destruct (String.eqb_spec e k) as [->|]; [now elim N | trivial].
      * reflexivity.
Qed.

Lemma lookup_None {A} k (d : list (string * A)) :
  lookup k d = None <-> ~ In k (map fst d).
Proof.
  induction d as [|[k' v] d IH]; cbn [lookup map fst In]; [tauto|].
  destruct (String.eqb_spec k' k) as [->|N].
  - split; [discriminate | intros H; elim H; now left].
  - rewrite IH. tauto.
Qed.

Lemma lookup_In {A} k (v : A) d :
  NoDup (map fst d) -> (In (k, v) d <-> lookup k d = Some v).
Proof.
  induction d as [|[k' v'] d IH]; cbn [lookup map fst In].
  - intros _. split; [tauto | discriminate].
  - intros N. inversion N as [|? ? Hk N']; subst.
    destruct (String.eqb_spec k' k) as [->|D].
    + split.
      * intros [[= ->]|H]; trivial. elim Hk. now apply (in_map fst) in H.
      * intros [= ->]. now left.
    + rewrite <- (IH N'). split; [intros [[= -> _]|H]; [now elim D | trivial] | auto].
Qed.

Lemma keys_stats_add e t d :
  map fst (stats_add e t d) =
  map fst d ++ (match lookup e d with Some _ => [] | None => [e] end).
Proof.
  induction d as [|[k' s'] d IH]; cbn [stats_add lookup map fst app]; trivial.
  destruct (String.eqb_spec k' e) as [->|N]; cbn [map fst].
  - now rewrite app_nil_r.
  - now rewrite IH.
Qed.

Lemma NoDup_stats_add e t d :
  NoDup (map fst d) -> NoDup (map fst (stats_add e t d)).
Proof.
  intros N. rewrite keys_stats_add.
  destruct (lookup e d) eqn:E; [now rewrite app_nil_r|].
  apply lookup_None in E.
  apply NoDup_app; repeat split; trivial.
  - constructor; [intros [] | constructor].
  - intros x Hx [<-|[]]. contradiction.
Qed.

Lemma total_count_stats_add e t d : total_count (stats_add e t d) = total_count d + 1.
Proof.
  induction d as [|[k' s'] d IH]; cbn [stats_add total_count fold_right snd count].
  - lia.
  - destruct (String.eqb k' e); cbn [total_count fold_right snd count].
    + fold (total_count d). lia.
    + fold (total_count (stats_add e t d)) (total_count d). lia.
Qed.

(** *** The records one by one *)

Lemma average_ready_inv log :
  average_ready log = true ->
  exists e t, endpoint_of log = Ok e /\ response_time_of log = Ok t.
Proof.
  unfold average_ready.
  destruct (endpoint_of log) as [e|]; [|discriminate].
  destruct (response_time_of log) as [t|]; [|discriminate]. eauto.
Qed.

Lemma endpoints_snoc logs log e :
  endpoint_of log = Ok e -> endpoints (logs ++ [log]) = endpoints logs ++ [e].
Proof.
  intros E. unfold endpoints. rewrite flat_map_app. simpl. now rewrite E.
Qed.

Lemma times_of_snoc k logs log e t :
  endpoint_of log = Ok e -> response_time_of log = Ok t ->
  times_of k (logs ++ [log]) = times_of k logs ++ (if String.eqb e k then [t] else []).
Proof.
  intros E T. unfold times_of. rewrite flat_map_app. simpl. rewrite E, T.
  now rewrite app_nil_r.
Qed.

(** An endpoint no record has, has no times. *)
Lemma times_of_absent k logs : ~ In k (endpoints logs) -> times_of k logs = [].
Proof.
  induction logs as [|log logs IH]; trivial.
  unfold endpoints, times_of in *. cbn [flat_map]. intros H.
  rewrite IH by (intros G; apply H, in_or_app; now right).
  destruct (endpoint_of log) as [e|]; trivial.
  destruct (response_time_of log); trivial.
  destruct (String.eqb_spec e k) as [->|]; trivial.
  elim H. now left.
Qed.

Lemma stat_of_snoc k logs log e t :
  endpoint_of log = Ok e -> response_time_of log = Ok t ->
  stat_of k (logs ++ [log]) =
  if String.eqb e k
  then mkstats (count (stat_of k logs) + 1) (F64.add (total_time (stat_of k logs)) t)
  else stat_of k logs.
Proof.
  intros E T. unfold stat_of. rewrite (times_of_snoc k logs _ E T).
  destruct (String.eqb e k).
  - rewrite length_app, fold_left_app. cbn [List.length fold_left count total_time].
    f_equal. lia.
  - now rewrite app_nil_r.
Qed.

Lemma stats_for_nil : stats_for [] [].
Proof.
  repeat split; try constructor. discriminate.
Qed.

(** One more record: its endpoint's item is updated, or entered. *)
Lemma stats_for_step d logs log e t :
  endpoint_of log = Ok e -> response_time_of log = Ok t ->
  stats_for d logs -> stats_for (stats_add e t d) (logs ++ [log]).
Proof.
  intros E T (N & L & P & C). repeat split.
  - now apply NoDup_stats_add.
  - intros k. rewrite lookup_stats_add, (endpoints_snoc _ _ E), (stat_of_snoc k _ _ E T).
    destruct (String.eqb_spec e k) as [->|D].
    + destruct (in_dec string_dec k (endpoints logs ++ [k])) as [_|H];
        [|elim H; apply in_or_app; right; now left].
      rewrite L. destruct (in_dec string_dec k (endpoints logs)) as [_|H]; trivial.
      unfold stat_of. rewrite (times_of_absent _ _ H). reflexivity.
    + rewrite L.
      destruct (in_dec string_dec k (endpoints logs)) as [H|H];
        destruct (in_dec string_dec k (endpoints logs ++ [e])) as [H'|H']; trivial.
      * elim H'. apply in_or_app. now left.
      * apply in_app_or in H' as [H'|[->|[]]]; [contradiction | now elim D].
  - intros k s. rewrite lookup_stats_add.
    destruct (String.eqb e k); [|apply P].
    intros [= <-]. destruct (lookup e d) as [s0|] eqn:F; cbn [count]; [|lia].
    specialize (P _ _ F). lia.
  - rewrite total_count_stats_add, C, length_app. cbn [List.length]. lia.
Qed.

Lemma average_fold logs :
  forall d done,
    stats_for d done ->
    Forall (fun log => average_ready log = true) logs ->
    exists d', fold_outcome logs average_step d = Ok d' /\ stats_for d' (done ++ logs).
Proof.
  induction logs as [|log logs IH]; intros d done Hd Hr; cbn [fold_outcome].
  - exists d. now rewrite app_nil_r.
  - inversion Hr as [|? ? Hlog Hr']; subst.
    destruct (average_ready_inv _ Hlog) as (e & t & E & T).
    unfold average_step at 1. rewrite E, T. cbn [obind].
    destruct (IH (stats_add e t d) (done ++ [log])) as (d' & F & S); trivial.
    + now apply stats_for_step.
    + exists d'. split; trivial. now rewrite <- app_assoc in S.
Qed.

(** The loop over the records returns only when every record is ready. *)
Lemma average_fold_ready logs :
  forall d d', fold_outcome logs average_step d = Ok d' ->
               Forall (fun log => average_ready log = true) logs.
Proof.
  induction logs as [|log logs IH]; intros d d'; cbn [fold_outcome]; [constructor|].
  unfold average_step at 1.
  destruct (endpoint_of log) as [e|] eqn:E; cbn [obind]; [|discriminate].
  destruct (response_time_of log) as [t|] eqn:T; cbn [obind]; [|discriminate].
  intros F. constructor; [|eapply IH, F].
  unfold average_ready. now rewrite E, T.
Qed.

(** *** The rows *)

Lemma average_rows d :
  (forall k s, lookup k d = Some s -> 0 < count s) ->
  NoDup (map fst d) ->
  map_outcome average_row d = Ok (map row_of d).
Proof.
  intros P N. induction d as [|[k s] d IH]; cbn [map_outcome map]; trivial.
  inversion N as [|? ? Hk N']; subst.
  assert (Hs : 0 < count s).
  { apply (P k). cbn [lookup]. now rewrite String.eqb_refl. }
  unfold average_row at 1, truediv_int.
  destruct (Z.eqb_spec (count s) 0) as [Z|_]; [lia|]. cbn [obind].
  rewrite IH; trivial.
  intros k' s' L. apply (P k'). cbn [lookup].
  destruct (String.eqb_spec k k') as [<-|]; trivial.
  apply lookup_In in L; trivial. elim Hk. now apply (in_map fst) in L.
Qed.

Lemma first_column_rows d : map first_column (map row_of d) = map VStr (map fst d).
Proof. rewrite !map_map. reflexivity. Qed.

Lemma NoDup_map_VStr l : NoDup l -> NoDup (map VStr l).
Proof.
  induction 1 as [|x l Hx N IH]; cbn [map]; constructor; trivial.
  intros H. apply in_map_iff in H as (y & [= ->] & Hy). contradiction.
Qed.

Lemma by_first_column_returns x y :
  string_keyed x -> string_keyed y -> by_first_column x y = Ok (row_ltb x y).
Proof.
  intros (s & Hs) (t & Ht). unfold by_first_column, row_ltb. now rewrite Hs, Ht.
Qed.

Lemma row_ltb_asym x y : row_ltb x y = true -> row_ltb y x = false.
Proof.
  unfold row_ltb. destruct (first_column x), (first_column y); trivial.
  apply string_ltb_asym.
Qed.

(** The report of records that are all ready: the rows are those of the
    statistics of the records, rearranged into strictly ascending order
    of the endpoints. *)
Lemma average_report_shape logs :
  Forall (fun log => average_ready log = true) logs ->
  exists d rows,
    AverageReport_generate logs = Ok (rows, ["Endpoint"; "Count"; "Average Time"]) /\
    stats_for d logs /\
    Permutation (map row_of d) rows /\
    StronglySorted row_lt rows.
Proof.
  intros R. destruct (@average_fold logs [] [] stats_for_nil R) as (d & F & S).
  cbn [app] in S. destruct S as (N & L & P & C).
  unfold AverageReport_generate. rewrite F. cbn [obind].
  rewrite (@average_rows d P N). cbn [obind].
  assert (K : Forall string_keyed (map row_of d)).
  { apply Forall_forall. intros x Hx. apply in_map_iff in Hx as ([k s] & <- & _).
    now exists k. }
  destruct (@sorted_returns _ by_first_column row_ltb string_keyed
              by_first_column_returns row_ltb_asym _ K)
    as (rows & E & Hp & Hs).
  rewrite E. cbn [obind]. exists d, rows. repeat split; trivial.
  apply strictly_sorted_rows with row_ltb; trivial.
  - intros x y Hx Hy.
    assert (Kx : string_keyed x).
    { rewrite Forall_forall in K. apply K.
      eapply Permutation_in; [apply Permutation_sym, Hp | exact Hx]. }
    assert (Ky : string_keyed y).
    { rewrite Forall_forall in K. apply K.
      eapply Permutation_in; [apply Permutation_sym, Hp | exact Hy]. }
    destruct Kx as (s & Es), Ky as (t & Et). exists s, t. repeat split; trivial.
    intros _. unfold row_ltb. now rewrite Es, Et.
  - eapply Permutation_NoDup; [apply Permutation_map, Hp|].
    rewrite first_column_rows. now apply NoDup_map_VStr.
Qed.

(** [generate] returns only for records that are all ready. *)
Lemma average_report_ready logs r :
  AverageReport_generate logs = Ok r ->
  Forall (fun log => average_ready log = true) logs.
Proof.
  unfold AverageReport_generate.
  destruct (fold_outcome logs average_step []) as [d|] eqn:F; [|discriminate].
  intros _. eapply average_fold_ready, F.
Qed.




Lemma stats_for_items d logs k s :
  stats_for d logs ->
  (In (k, s) d <-> In k (endpoints logs) /\ s = stat_of k logs).
Proof.
  intros S. destruct S as (N & L & P & C).
  rewrite (@lookup_In _ k s d N), L.
  destruct (in_dec string_dec k (endpoints logs)) as [H|H].
  - split; [intros [= <-]; auto | intros [_ ->]; trivial].
  - split; [discriminate | tauto].
Qed.



(** *** The text of a mean *)











(** The rounding of the text: the integer of thousandths is a nearest one
    to the exact quotient, and the even one of two that are as near. *)
Lemma round_half_even_nearest num den :
  0 < den ->
  let q := F64.round_half_even num den in
  2 * Z.abs (q * den - num) <= den /\
  (2 * Z.abs (q * den - num) = den -> Z.even q = true).
Proof.
  intros Hd. unfold F64.round_half_even.
  assert (E := Z.div_mod num den (ltac:(lia) : den <> 0)).
  assert (B := Z.mod_pos_bound num den Hd).
  destruct (Z.compare_spec (2 * (num mod den)) den) as [C|C|C]; cbv zeta.
  - destruct (Z.even (num / den)) eqn:V.
    + split; [lia | trivial].
    + split; [lia|]. intros _. rewrite Z.even_add, V. reflexivity.
  - split; lia.
  - split; lia.
Qed.



(** The mean of the two records of [/api/users] in the test data. *)
Example mean_of_api_users :
  times_of "/api/users" Tests.sample_logs
  = [F64.of_decimal false 123 (-3); F64.of_decimal false 456 (-3)] /\
  F64.format_3f (float_mean (times_of "/api/users" Tests.sample_logs)) = "0.289".
Proof. split; vm_compute; reflexivity. Qed.

(** ** The user-agent report *)

(** *** The counter *)

Lemma counter_add_strings ua c :
  counter_add (VStr ua) (map string_item c) = map string_item (tally ua c).
Proof.
  induction c as [|[k n] c IH]; cbn [map tally counter_add string_item fst snd]; trivial.
  cbn [py_eq]. destruct (String.eqb k ua); cbn [map string_item fst snd]; trivial.
  now rewrite <- IH.
Qed.

Lemma lookup_tally ua c k :
  lookup k (tally ua c) =
  if String.eqb ua k
  then Some match lookup ua c with Some n => n + 1 | None => 0 + 1 end
  else lookup k c.
Proof.
  induction c as [|[k' n'] c IH]; cbn [tally lookup]; trivial.
  destruct (String.eqb_spec k' ua) as [->|N]; cbn [lookup].
  - destruct (String.eqb_spec ua k) as [->|N']; trivial.
  - rewrite IH. destruct (String.eqb_spec k' k) as [->|N']; trivial.
    destruct (String.eqb_spec ua k) as [->|]; [now elim N | trivial].
Qed.

Lemma keys_tally ua c :
  map fst (tally ua c) = map fst c ++ (match lookup ua c with Some _ => [] | None => [ua] end).
Proof.
  induction c as [|[k' n'] c IH]; cbn [tally lookup map fst app]; trivial.
  destruct (String.eqb_spec k' ua) as [->|N]; cbn [map fst].
  - now rewrite app_nil_r.
  - now rewrite IH.
Qed.

Lemma NoDup_tally ua c : NoDup (map fst c) -> NoDup (map fst (tally ua c)).
Proof.
  intros N. rewrite keys_tally.
  destruct (lookup ua c) eqn:E; [now rewrite app_nil_r|].
  apply lookup_None in E.
  apply NoDup_app; repeat split; trivial.
  - constructor; [intros [] | constructor].
  - intros x Hx [<-|[]]. contradiction.
Qed.

(** *** The records one by one *)

Lemma user_agent_ready_inv log :
  user_agent_ready log = true ->
  exists ua, user_agent_group log = Some ua /\ user_agent_of log = Ok (VStr ua).
Proof.
  unfold user_agent_ready, user_agent_group, user_agent_of, get_default.
  destruct log; try discriminate.
  destruct (dict_get "http_user_agent" d) as [[]|]; try discriminate; eauto.
Qed.

Lemma user_agents_snoc logs log ua :
  user_agent_group log = Some ua -> user_agents (logs ++ [log]) = user_agents logs ++ [ua].
Proof.
  intros E. unfold user_agents. rewrite flat_map_app. simpl. now rewrite E.
Qed.

Lemma counts_for_nil : counts_for [] [].
Proof. split; [constructor | reflexivity]. Qed.

Lemma counts_for_step c logs log ua :
  user_agent_group log = Some ua ->
  counts_for c logs -> counts_for (tally ua c) (logs ++ [log]).
Proof.
  intros E (N & L). split; [now apply NoDup_tally|].
  intros k. rewrite lookup_tally, (user_agents_snoc _ _ E), count_occ_app.
  cbn [count_occ]. destruct (String.eqb_spec ua k) as [->|D].
  - destruct (in_dec string_dec k (user_agents logs ++ [k])) as [_|H];
      [|elim H; apply in_or_app; right; now left].
    destruct (string_dec k k) as [_|H]; [|now elim H].
    rewrite L. destruct (in_dec string_dec k (user_agents logs)) as [_|H].
    + f_equal. lia.
    + apply (count_occ_not_In string_dec) in H. rewrite H. reflexivity.
  - destruct (string_dec ua k) as [->|_]; [now elim D|].
    rewrite L, Nat.add_0_r.
    destruct (in_dec string_dec k (user_agents logs)) as [H|H];
      destruct (in_dec string_dec k (user_agents logs ++ [ua])) as [H'|H']; trivial.
    + elim H'. apply in_or_app. now left.
    + apply in_app_or in H' as [H'|[->|[]]]; [contradiction | now elim D].
Qed.

Lemma user_agent_fold logs :
  forall c done,
    counts_for c done ->
    Forall (fun log => user_agent_ready log = true) logs ->
    exists c', fold_outcome logs user_agent_step (map string_item c)
               = Ok (map string_item c') /\
               counts_for c' (done ++ logs).
Proof.
  induction logs as [|log logs IH]; intros c done Hc Hr; cbn [fold_outcome].
  - exists c. now rewrite app_nil_r.
  - inversion Hr as [|? ? Hlog Hr']; subst.
    destruct (user_agent_ready_inv _ Hlog) as (ua & G & U).
    unfold user_agent_step at 1. rewrite U. cbn [obind hashable].
    rewrite counter_add_strings.
    destruct (IH (tally ua c) (done ++ [log])) as (c' & F & S); trivial.
    + now apply counts_for_step.
    + exists c'. split; trivial. now rewrite <- app_assoc in S.
Qed.

(** *** The rows *)

Lemma item_lt_returns x y :
  string_keyed_item x -> string_keyed_item y -> item_lt x y = Ok (item_ltb x y).
Proof.
  intros (s & Hs) (t & Ht). unfold item_lt, item_ltb. rewrite Hs, Ht.
  cbn [py_eq py_lt]. now destruct (String.eqb s t).
Qed.

Lemma item_ltb_asym x y : item_ltb x y = true -> item_ltb y x = false.
Proof.
  unfold item_ltb. destruct (fst x), (fst y); trivial.
  rewrite (String.eqb_sym s0 s). destruct (String.eqb s s0).
  - rewrite !Z.ltb_lt, Z.ltb_ge. lia.
  - apply string_ltb_asym.
Qed.

Lemma Sorted_map {A B} (R : A -> A -> Prop) (R' : B -> B -> Prop) (f : A -> B) l :
  (forall x y, R x y -> R' (f x) (f y)) -> Sorted R l -> Sorted R' (map f l).
Proof.
  intros H. induction 1 as [|x l S IH Hd]; cbn [map]; constructor; trivial.
  destruct Hd; cbn [map]; constructor. now apply H.
Qed.

Lemma item_row_not_above x y :
  not_above item_ltb x y -> not_above row_ltb (item_row x) (item_row y).
Proof.
  unfold not_above, item_ltb, row_ltb, item_row, first_column. cbn [hd].
  destruct (fst y), (fst x); trivial.
  destruct (String.eqb_spec s s0) as [->|]; trivial.
  intros _. apply string_ltb_irrefl.
Qed.

(** The report of records whose user agents are strings or missing: the
    rows are those of the counts of the records, rearranged into strictly
    ascending order of the user agents. *)
Lemma user_agent_report_shape logs :
  Forall (fun log => user_agent_ready log = true) logs ->
  exists c rows,
    UserAgentReport_generate logs = Ok (rows, ["User-Agent"; "Count"]) /\
    counts_for c logs /\
    Permutation (map (fun item => item_row (string_item item)) c) rows /\
    StronglySorted row_lt rows.
Proof.
  intros R.
  destruct (@user_agent_fold logs [] [] counts_for_nil R) as (c & F & S).
  cbn [app map] in *. unfold UserAgentReport_generate. rewrite F. cbn [obind].
  assert (K : Forall string_keyed_item (map string_item c)).
  { apply Forall_forall. intros x Hx. apply in_map_iff in Hx as ([k n] & <- & _).
    now exists k. }
  destruct (@sorted_returns _ item_lt item_ltb string_keyed_item
              item_lt_returns item_ltb_asym _ K) as (items & E & Hp & Hs).
  rewrite E. cbn [obind].
  assert (M : map (fun '(ua, n) => [ua; VInt n]) items = map item_row items).
  { apply map_ext. now intros [ua n]. }
  rewrite M. exists c, (map item_row items).
  split; [reflexivity|]. split; [exact S|]. split.
  - replace (map (fun item => item_row (string_item item)) c)
      with (map item_row (map string_item c)) by apply map_map.
    now apply Permutation_map.
  - assert (Ki : forall x, In x items -> string_keyed_item x).
    { intros x Hx. rewrite Forall_forall in K. apply K.
      eapply Permutation_in; [apply Permutation_sym, Hp | exact Hx]. }
    apply strictly_sorted_rows with row_ltb.
    + intros x y Hx Hy.
      apply in_map_iff in Hx as (ix & <- & Hx), Hy as (iy & <- & Hy).
      destruct (Ki _ Hx) as (s & Es), (Ki _ Hy) as (t & Et).
      exists s, t. unfold row_ltb, item_row, first_column. cbn [hd].
      rewrite Es, Et. auto.
    + assert (Q : map first_column (map item_row items) = map fst items).
      { rewrite map_map. reflexivity. }
      rewrite Q. eapply Permutation_NoDup; [apply Permutation_map, Hp|].
      rewrite map_map. cbn [string_item fst].
      rewrite <- (map_map fst VStr). apply NoDup_map_VStr, S.
    + eapply Sorted_map; [apply item_row_not_above | exact Hs].
Qed.

Lemma counts_for_items c logs k n :
  counts_for c logs ->
  (In (k, n) c <->
   In k (user_agents logs) /\ n = Z.of_nat (count_occ string_dec (user_agents logs) k)).
Proof.
  intros (N & L). rewrite (@lookup_In _ k n c N), L.
  destruct (in_dec string_dec k (user_agents logs)) as [H|H].
  - split; [intros [= <-]; auto | intros [_ ->]; trivial].
  - split; [discriminate | tauto].
Qed.

(** C9. The user-agent report of records whose [http_user_agent] is a
    string or is missing has the headers [User-Agent] and [Count] and
    exactly these rows, one for each group: the user agent as it stands
    in the records ([Unknown] for the records without the field) and the
    number of records of the group. *)
Theorem user_agent_report_groups logs :
  Forall (fun log => user_agent_ready log = true) logs ->
  exists rows,
    UserAgentReport_generate logs = Ok (rows, ["User-Agent"; "Count"]) /\
    (forall row, In row rows <->
       exists ua, In ua (user_agents logs) /\
                  row = [VStr ua; VInt (Z.of_nat (count_occ string_dec (user_agents logs) ua))]) /\
    NoDup (map first_column rows) /\
    (forall d, dict_get "http_user_agent" d = None ->
               user_agent_group (VDict d) = Some "Unknown") /\
    (forall d s, dict_get "http_user_agent" d = Some (VStr s) ->
                 user_agent_group (VDict d) = Some s).
Proof.
  intros R. destruct (@user_agent_report_shape logs R) as (c & rows & G & S & Hp & Hs).
  exists rows. split; trivial. repeat split.
  - intros H. apply (Permutation_in _ (Permutation_sym Hp)) in H.
    apply in_map_iff in H as ([k n] & <- & H).
    apply (counts_for_items k n S) in H as [Hk ->].
    exists k. split; trivial.
  - intros (ua & Hua & ->). apply (Permutation_in _ Hp).
    apply in_map_iff.
    exists (ua, Z.of_nat (count_occ string_dec (user_agents logs) ua)). split; trivial.
    now apply (counts_for_items _ _ S).
  - eapply Permutation_NoDup; [apply Permutation_map, Hp|].
    rewrite map_map. cbn [item_row string_item first_column hd fst].
    rewrite <- (map_map fst VStr). apply NoDup_map_VStr, S.
  - intros d H. unfold user_agent_group. now rewrite H.
  - intros d s H. unfold user_agent_group. now rewrite H.
Qed.

Lemma user_agent_report_groups_witness :
  exists rows,
    UserAgentReport_generate (VDict [("url", VStr "/a")] :: Tests.sample_logs)
    = Ok (rows, ["User-Agent"; "Count"]) /\
    (forall row, In row rows <->
       exists ua, In ua (user_agents (VDict [("url", VStr "/a")] :: Tests.sample_logs)) /\
                  row = [VStr ua;
                         VInt (Z.of_nat (count_occ string_dec
                                 (user_agents (VDict [("url", VStr "/a")] :: Tests.sample_logs))
                                 ua))]) /\
    NoDup (map first_column rows) /\
    (forall d, dict_get "http_user_agent" d = None ->
               user_agent_group (VDict d) = Some "Unknown") /\
    (forall d s, dict_get "http_user_agent" d = Some (VStr s) ->
                 user_agent_group (VDict d) = Some s).
Proof.
  apply (@user_agent_report_groups (VDict [("url", VStr "/a")] :: Tests.sample_logs)).
  repeat constructor.
Defined.

Example user_agent_report_unknown :
  UserAgentReport_generate (VDict [("url", VStr "/a")] :: Tests.sample_logs) =
  Ok ([[VStr "Chrome"; VInt 2]; [VStr "Firefox"; VInt 1]; [VStr "Safari"; VInt 1];
       [VStr "Unknown"; VInt 1]], ["User-Agent"; "Count"]).
Proof. vm_compute. reflexivity. Qed.

(** ** The order of the rows *)

(** C10. The rows of both reports are in ascending order of their first
    column, compared as strings, character by character: every report the
    average strategy returns is, and so is the report the user-agent
    strategy returns for records whose user agents are strings or
    missing.  No two rows have the same first column, so the order is
    strict. *)
Theorem report_rows_sorted logs :
  (forall rows headers,
     AverageReport_generate logs = Ok (rows, headers) -> StronglySorted row_lt rows) /\
  (Forall (fun log => user_agent_ready log = true) logs ->
   exists rows,
     UserAgentReport_generate logs = Ok (rows, ["User-Agent"; "Count"]) /\
     StronglySorted row_lt rows).
Proof.
  split.
  - intros rows headers G.
    destruct (@average_report_shape logs (average_report_ready _ G))
      as (d & rows' & G' & _ & _ & S).
    rewrite G in G'. now injection G' as -> _.
  - intros R. destruct (@user_agent_report_shape logs R) as (c & rows & G & _ & _ & S).
    eauto.
Qed.

Lemma report_rows_sorted_witness :
  StronglySorted row_lt
    [[VStr "/api/context/..."; VInt 1; VStr "0.321"];
     [VStr "/api/products"; VInt 1; VStr "0.789"];
     [VStr "/api/users"; VInt 2; VStr "0.289"]] /\
  exists rows,
    UserAgentReport_generate Tests.sample_logs = Ok (rows, ["User-Agent"; "Count"]) /\
    StronglySorted row_lt rows.
Proof.
  split.
  - apply (proj1 (@report_rows_sorted Tests.sample_logs) _
             ["Endpoint"; "Count"; "Average Time"]).
    vm_compute. reflexivity.
  - apply (proj2 (@report_rows_sorted Tests.sample_logs)).
    repeat constructor.
Defined.

(** * Further properties of the code *)

(** ** The reader: what stops it *)







Lemma read_logs_unfold fs paths date_filter f :
  parse_date_filter date_filter = Ok f ->
  read_logs fs paths date_filter = for_each paths (read_file fs f) [].
Proof.
  intros P. unfold read_logs. rewrite P. unfold lift, bind.
  now destruct (for_each paths (read_file fs f) []).
Qed.

(** X1. A date filter that is not empty and does not parse as
    [%Y-%m-%d] ends [read_logs], and the run, with ValueError before any
    file is opened, whatever the files are.  The empty string is no such
    filter: it reads as no filter at all. *)
Theorem bad_date_filter_stops_first fs paths s e :
  s <> EmptyString -> Datetime.strptime_date s = Raise e ->
  read_logs fs paths (Some s) = (Raise ValueError, []) /\
  (forall args, file args = paths -> date args = Some s ->
                run fs args = (Raise ValueError, [])) /\
  read_logs fs paths (Some EmptyString) = read_logs fs paths None.
Proof.
  intros N E.
  assert (R : read_logs fs paths (Some s) = (Raise ValueError, []))
    by now apply read_logs_bad_filter with e.
  split; [exact R|]. split; [|reflexivity].
  intros args <- D. unfold run, bind. now rewrite D, R.
Qed.

Lemma bad_date_filter_stops_first_witness :
  read_logs Tests.log_file ["test.log"] (Some "22.06.2025") = (Raise ValueError, []) /\
  (forall args, file args = ["test.log"] -> date args = Some "22.06.2025" ->
                run Tests.log_file args = (Raise ValueError, [])) /\
  read_logs Tests.log_file ["test.log"] (Some EmptyString)
  = read_logs Tests.log_file ["test.log"] None.
Proof.
  apply (@bad_date_filter_stops_first Tests.log_file ["test.log"] "22.06.2025" ValueError).
  - discriminate.
  - vm_compute. reflexivity.
Defined.

(** X2. A path that cannot be opened ends the run with its OSError when
    its turn comes: the files before it have been read to their end, the
    records taken from them are lost, and no file after it is opened. *)
Theorem unreadable_file_stops_at_its_turn fs before path after date_filter f :
  parse_date_filter date_filter = Ok f ->
  forallb (readable fs) before = true ->
  forallb (passable f) (all_lines fs before) = true ->
  fs path = None ->
  read_logs fs (before ++ path :: after) date_filter =
  (Raise (OSError path), flat_map (file_events fs) before ++ [EvOpen path]).
Proof.
  intros P R L N.
  assert (B := @read_logs_passable fs before date_filter f P R L).
  rewrite (@read_logs_unfold fs before _ _ P) in B.
  rewrite (@read_logs_unfold fs (before ++ path :: after) _ _ P), for_each_app, B.
  cbn [bind for_each]. rewrite (@read_file_missing fs f _ _ N). reflexivity.
Qed.

Lemma unreadable_file_stops_at_its_turn_witness :
  read_logs Tests.log_file (["test.log"] ++ "missing.log" :: ["test.log"]) None =
  (Raise (OSError "missing.log"),
   flat_map (file_events Tests.log_file) ["test.log"] ++ [EvOpen "missing.log"]).
Proof.
  apply (@unreadable_file_stops_at_its_turn Tests.log_file ["test.log"] "missing.log"
           ["test.log"] None None); vm_compute; reflexivity.
Defined.

(** ** The reader: what it returns *)

Lemma read_line_filtered_inv d logs line logs' t :
  read_line (Some d) logs line = (Ok logs', t) ->
  logs' = logs \/ exists v, logs' = logs ++ [v] /\ on_date d v = true.
Proof.
  destruct (Json.loads line) as [v|e] eqn:E.
  - destruct (timestamp_date v) as [d'|e] eqn:T.
    + rewrite (read_line_dated d logs _ E T).
      destruct (Datetime.date_eqb d' d) eqn:Q; intros H; injection H as <- _; [|now left].
      right. exists v. split; trivial. unfold on_date. now rewrite T.
    + rewrite (read_line_fault d logs _ E T). discriminate.
  - rewrite read_line_invalid by (unfold decodes; now rewrite E).
    intros H. injection H as <- _. now left.
Qed.

(** X5. Whatever the files hold, every record a filtered read returns has
    a timestamp written on the filter's date (what the repository's test
    of the filter asserts of its one file). *)
Theorem filtered_records_are_on_the_date fs paths s d logs t :
  Datetime.strptime_date s = Ok d ->
  read_logs fs paths (Some s) = (Ok logs, t) ->
  Forall (fun v => on_date d v = true) logs.
Proof.
  intros D H.
  assert (P : parse_date_filter (Some s) = Ok (Some d)).
  { destruct s as [|c s]; [discriminate|]. simpl. now rewrite D. }
  rewrite (@read_logs_unfold fs paths _ _ P) in H.
  eapply (@for_each_invariant _ _ (Forall (fun v => on_date d v = true)));
    [|constructor|exact H].
  intros s0 path s1 t1 _ Hs. unfold read_file, open_lines, emit, bind at 2.
  destruct (fs path) as [text|]; cbn [ret raise app bind]; [|discriminate].
  destruct (for_each (Str.lines text) (read_line (Some d)) s0) as [r2 t2] eqn:F2.
  intros [= -> _].
  eapply (@for_each_invariant _ _ (Forall (fun v => on_date d v = true)));
    [|exact Hs|exact F2].
  intros l line l' t3 _ Hl R.
  destruct (read_line_filtered_inv _ _ _ R) as [->|(v & -> & O)]; trivial.
  apply Forall_app. split; trivial. now constructor.
Qed.

Lemma filtered_records_are_on_the_date_witness :
  Forall (fun v => on_date (Datetime.mkdate 2025 6 22) v = true)
         [nth 0 Tests.sample_logs VNone; nth 1 Tests.sample_logs VNone;
          nth 3 Tests.sample_logs VNone].
Proof.
  apply (@filtered_records_are_on_the_date Tests.log_file ["test.log"] "2025-06-22"
           (Datetime.mkdate 2025 6 22) _
           [EvOpen "test.log"; EvPrint "Skipping invalid JSON line: invalid json"]);
    vm_compute; reflexivity.
Defined.

(** *** Reading more files *)

(** A round of the reader looks at the list it is given only to append
    to it. *)
Lemma read_line_prepend f logs line :
  read_line f logs line = prepend logs (read_line f [] line).
Proof.
  destruct (Json.loads line) as [v|e] eqn:E.
  - destruct f as [d|].
    + destruct (timestamp_date v) as [d'|e] eqn:T.
      * rewrite !(read_line_dated d _ _ E T).
        destruct (Datetime.date_eqb d' d); cbn [prepend app]; trivial.
        now rewrite app_nil_r.
      * now rewrite !(read_line_fault d _ _ E T).
    + now rewrite !(read_line_unfiltered _ _ E).
  - rewrite !read_line_invalid by (unfold decodes; now rewrite E).
    cbn [prepend]. now rewrite app_nil_r.
Qed.

Lemma prepend_nil m : prepend [] m = m.
Proof. now destruct m as [[l|e] t]. Qed.

Lemma for_each_prepend {X} (xs : list X) (body : list value -> X -> io (list value)) :
  (forall s x, body s x = prepend s (body [] x)) ->
  forall s, for_each xs body s = prepend s (for_each xs body []).
Proof.
  intros H. induction xs as [|x xs IH]; intros s; cbn [for_each].
  - cbn [ret prepend]. now rewrite app_nil_r.
  - rewrite (H s x). unfold bind. destruct (body [] x) as [[l|e] t]; cbn [prepend]; trivial.
    rewrite (IH (s ++ l)), (IH l).
    destruct (for_each xs body []) as [[l'|e] t']; cbn [prepend]; trivial.
    now rewrite app_assoc.
Qed.

Lemma read_file_prepend fs f logs path :
  read_file fs f logs path = prepend logs (read_file fs f [] path).
Proof.
  unfold read_file, open_lines, emit, bind at 2 4.
  destruct (fs path) as [text|]; cbn [ret raise app bind prepend]; trivial.
  rewrite (for_each_prepend (Str.lines text) (read_line f) (read_line_prepend f) logs).
  now destruct (for_each (Str.lines text) (read_line f) []) as [[l|e] t].
Qed.

(** X6. Reading two lists of paths in one call is reading the first and
    then the second: the records and the output of the two reads follow
    each other, and an error of the first read is the error of the whole,
    with nothing of the second list opened. *)
Theorem read_logs_app fs paths more date_filter :
  read_logs fs (paths ++ more) date_filter =
  read_then (read_logs fs paths date_filter) (read_logs fs more date_filter).
Proof.
  destruct (parse_date_filter date_filter) as [f|e] eqn:P.
  - rewrite !(@read_logs_unfold fs _ _ _ P), for_each_app. unfold bind, read_then.
    destruct (for_each paths (read_file fs f) []) as [[l1|e] t1]; trivial.
    rewrite (for_each_prepend more (read_file fs f) (read_file_prepend fs f) l1).
    now destruct (for_each more (read_file fs f) []) as [[l2|e] t2].
  - unfold read_logs. rewrite P. reflexivity.
Qed.

(** ** The reader: how much it returns *)

Lemma decoded_or_not ls :
  (List.length (decoded ls) + List.length (filter (fun l => negb (decodes l)) ls))%nat
  = List.length ls.
Proof.
  induction ls as [|l ls IH]; trivial.
  unfold decoded, decodes in *. cbn [flat_map filter].
  destruct (Json.loads l); cbn [negb app List.length]; lia.
Qed.

Lemma file_events_prints fs path :
  filter is_print (file_events fs path) =
  map (fun l => EvPrint (skip_message l))
      (filter (fun l => negb (decodes l)) (lines_of fs path)).
Proof.
  unfold file_events. cbn [filter is_print].
  induction (filter (fun l => negb (decodes l)) (lines_of fs path)) as [|l ls IH];
    cbn [map filter is_print]; congruence.
Qed.

Lemma events_prints fs paths :
  List.length (filter is_print (flat_map (file_events fs) paths)) =
  List.length (filter (fun l => negb (decodes l)) (all_lines fs paths)).
Proof.
  unfold all_lines. induction paths as [|p ps IH]; trivial.
  cbn [flat_map]. rewrite !filter_app, !length_app, IH, file_events_prints.
  now rewrite length_map.
Qed.

Lemma events_opens fs paths :
  List.length (filter is_open (flat_map (file_events fs) paths)) = List.length paths.
Proof.
  induction paths as [|p ps IH]; trivial.
  cbn [flat_map]. rewrite filter_app, length_app, IH. unfold file_events.
  cbn [filter is_open List.length]. f_equal.
  induction (filter (fun l => negb (decodes l)) (lines_of fs p)) as [|l ls IHl];
    cbn [map filter is_open]; trivial.
Qed.

(** X7. In a run that meets nothing fatal every file is opened once, and
    no line is both returned and reported: the records returned and the
    messages printed are together no more than the lines read.  Without a
    date filter they are exactly as many: each line is either returned
    or reported. *)
Theorem every_line_is_kept_or_reported fs paths date_filter f :
  parse_date_filter date_filter = Ok f ->
  forallb (readable fs) paths = true ->
  forallb (passable f) (all_lines fs paths) = true ->
  exists logs t,
    read_logs fs paths date_filter = (Ok logs, t) /\
    List.length (filter is_open t) = List.length paths /\
    (List.length logs + List.length (filter is_print t)
     <= List.length (all_lines fs paths))%nat /\
    (f = None ->
     (List.length logs + List.length (filter is_print t))%nat
     = List.length (all_lines fs paths)).
Proof.
  intros P R L. eexists. eexists.
  split; [exact (@read_logs_passable fs paths date_filter f P R L)|].
  rewrite events_opens, events_prints. split; trivial.
  assert (D := decoded_or_not (all_lines fs paths)). split.
  - destruct f as [d|]; cbn [kept]; [|lia].
    assert (G := filter_length_le (on_date d) (decoded (all_lines fs paths))). lia.
  - intros ->. exact D.
Qed.

Lemma every_line_is_kept_or_reported_witness :
  exists logs t,
    read_logs Tests.log_file ["test.log"] None = (Ok logs, t) /\
    List.length (filter is_open t) = List.length ["test.log"] /\
    (List.length logs + List.length (filter is_print t)
     <= List.length (all_lines Tests.log_file ["test.log"]))%nat /\
    (@None Datetime.date = None ->
     (List.length logs + List.length (filter is_print t))%nat
     = List.length (all_lines Tests.log_file ["test.log"])).
Proof.
  apply (@every_line_is_kept_or_reported Tests.log_file ["test.log"] None None);
    vm_compute; reflexivity.
Defined.

(** X8. The date filter only takes records away and changes nothing
    else: in a run that meets nothing fatal, the filtered read returns the
    records of the unfiltered read that are on the date, in the same
    order, and prints the same messages. *)
Theorem filter_keeps_a_sublist fs paths s d :
  Datetime.strptime_date s = Ok d ->
  forallb (readable fs) paths = true ->
  forallb harmless (all_lines fs paths) = true ->
  exists all t,
    read_logs fs paths None = (Ok all, t) /\
    read_logs fs paths (Some s) = (Ok (filter (on_date d) all), t).
Proof.
  intros D R L. eexists. eexists. split.
  - apply (@read_logs_passable fs paths None None); trivial.
    apply forallb_forall. reflexivity.
  - apply (@read_logs_passable fs paths (Some s) (Some d)); trivial.
    destruct s as [|c s]; [discriminate|]. simpl. now rewrite D.
Qed.

Lemma filter_keeps_a_sublist_witness :
  exists all t,
    read_logs Tests.log_file ["test.log"] None = (Ok all, t) /\
    read_logs Tests.log_file ["test.log"] (Some "2025-06-22")
    = (Ok (filter (on_date (Datetime.mkdate 2025 6 22)) all), t).
Proof.
  apply (@filter_keeps_a_sublist Tests.log_file ["test.log"] "2025-06-22"
           (Datetime.mkdate 2025 6 22)); vm_compute; reflexivity.
Defined.

(** ** The average report: when it fails *)

(** A loop without effects that raises does so at one element, after the
    rounds before it have returned. *)
Lemma fold_outcome_raise_inv {X S} (xs : list X) (body : S -> X -> outcome S) s e :
  fold_outcome xs body s = Raise e ->
  exists before x after s',
    xs = before ++ x :: after /\ fold_outcome before body s = Ok s' /\
    body s' x = Raise e.
Proof.
  revert s. induction xs as [|x xs IH]; intros s; cbn [fold_outcome]; [discriminate|].
  destruct (body s x) as [s1|e1] eqn:B; cbn [obind].
  - intros H. destruct (IH _ H) as (before & y & after & s' & -> & F & G).
    exists (x :: before), y, after, s'. cbn [fold_outcome app]. rewrite B. auto.
  - intros [= <-]. exists [], x, xs, s. auto.
Qed.

Lemma endpoint_of_error log e :
  endpoint_of log = Raise e -> e = KeyError "url" \/ e = TypeError \/ e = AttributeError.
Proof.
  unfold endpoint_of, subscript. destruct log; cbn [obind]; try (intros [= <-]; auto).
  destruct (dict_get "url" d) as [[]|]; cbn [obind]; intros [= <-]; auto.
Qed.

Lemma response_time_of_error log e :
  response_time_of log = Raise e ->
  e = KeyError "response_time" \/ e = TypeError \/ e = ValueError \/ e = OverflowError.
Proof.
  unfold response_time_of, subscript. destruct log; cbn [obind]; try (intros [= <-]; auto).
  destruct (dict_get "response_time" d) as [v|]; cbn [obind]; [|intros [= <-]; auto].
  unfold py_float. destruct v; try (intros [= <-]; auto); try discriminate.
  - destruct (F64.of_int z); try discriminate. intros [= <-]. auto.
  - destruct (F64.of_string s); [discriminate|]. intros [= <-]. auto.
Qed.

(** X9. The average report is returned exactly for records that each have
    a string [url] and a [response_time] that [float] accepts.  When it
    is not, the error is that of the first record in input order that is
    not such a record, raised by its [url] or else by its
    [response_time]; a division by zero never happens. *)
Theorem average_report_fails_on_first_bad_record logs :
  ((exists r, AverageReport_generate logs = Ok r) <->
   Forall (fun log => average_ready log = true) logs) /\
  (forall e, AverageReport_generate logs = Raise e ->
     exists before log after,
       logs = before ++ log :: after /\
       Forall (fun log => average_ready log = true) before /\
       average_ready log = false /\
       (endpoint_of log = Raise e \/
        exists endpoint, endpoint_of log = Ok endpoint /\ response_time_of log = Raise e) /\
       e <> ZeroDivisionError).
Proof.
  split; [split|].
  - intros (r & H). eapply average_report_ready, H.
  - intros R. destruct (@average_report_shape logs R) as (d & rows & G & _). eauto.
  - intros e H.
    destruct (fold_outcome logs average_step []) as [d|e'] eqn:F.
    + apply average_fold_ready in F.
      destruct (@average_report_shape logs F) as (d' & rows & G & _). congruence.
    + assert (e' = e) as ->.
      { unfold AverageReport_generate in H. rewrite F in H. now injection H. }
      destruct (fold_outcome_raise_inv _ _ _ F) as (before & log & after & d' & -> & Fb & B).
      exists before, log, after. split; trivial.
      split; [eapply average_fold_ready, Fb|].
      unfold average_step in B. unfold average_ready.
      destruct (endpoint_of log) as [ep|e1] eqn:E; cbn [obind] in B.
      * destruct (response_time_of log) as [tm|e2] eqn:T; cbn [obind] in B; [discriminate|].
        injection B as ->. split; trivial. split; [right; eauto|].
        destruct (response_time_of_error _ T) as [->|[->|[->| ->]]]; discriminate.
      * injection B as ->. split; trivial. split; [now left|].
        destruct (endpoint_of_error _ E) as [->|[->| ->]]; discriminate.
Qed.

(** ** The average report: its rows *)

Lemma endpoints_normalized logs e :
  In e (endpoints logs) -> exists url, e = normalize_url url.
Proof.
  unfold endpoints. rewrite in_flat_map. intros (log & _ & H).
  destruct (endpoint_of log) as [e'|] eqn:E; [destruct H as [<-|[]] | destruct H].
  unfold endpoint_of in E.
  destruct (subscript log "url") as [[]|]; cbn [obind] in E; try discriminate.
  injection E as <-. eauto.
Qed.

(** The rows of the report of ready records, one by one. *)
Lemma average_rows_spec logs :
  Forall (fun log => average_ready log = true) logs ->
  exists rows,
    AverageReport_generate logs = Ok (rows, ["Endpoint"; "Count"; "Average Time"]) /\
    StronglySorted row_lt rows /\
    (forall row, In row rows <->
       exists e, In e (endpoints logs) /\ row = row_of (e, stat_of e logs)).
Proof.
  intros R. destruct (@average_report_shape logs R) as (d & rows & G & S & Hp & Hs).
  exists rows. split; trivial. split; trivial.
  intros row. split.
  - intros H. apply (Permutation_in _ (Permutation_sym Hp)) in H.
    apply in_map_iff in H as ([k s] & <- & H).
    apply (stats_for_items k s S) in H as [Hk ->]. eauto.
  - intros (e & He & ->). apply (Permutation_in _ Hp).
    apply in_map_iff. exists (e, stat_of e logs). split; trivial.
    now apply (stats_for_items e (stat_of e logs) S).
Qed.

(** X10. Whatever the records, the first column of every row of an
    average report is a string that holds neither [?] nor [#]. *)
Theorem average_endpoints_are_clean logs rows headers :
  AverageReport_generate logs = Ok (rows, headers) ->
  Forall (fun row => exists e, first_column row = VStr e /\
                               Str.mem "?" e = false /\ Str.mem "#" e = false) rows.
Proof.
  intros G.
  destruct (@average_rows_spec logs (average_report_ready _ G)) as (rows' & G' & _ & M).
  rewrite G in G'. injection G' as -> _.
  apply Forall_forall. intros row H. apply M in H as (e & He & ->).
  exists e. split; trivial.
  destruct (endpoints_normalized _ _ He) as (url & ->). apply normalize_url_clean.
Qed.

Lemma average_endpoints_are_clean_witness :
  Forall (fun row => exists e, first_column row = VStr e /\
                               Str.mem "?" e = false /\ Str.mem "#" e = false)
         [[VStr "/api/context/..."; VInt 1; VStr "0.321"];
          [VStr "/api/products"; VInt 1; VStr "0.789"];
          [VStr "/api/users"; VInt 2; VStr "0.289"]].
Proof.
  apply (@average_endpoints_are_clean Tests.sample_logs _ ["Endpoint"; "Count"; "Average Time"]).
  vm_compute. reflexivity.
Defined.

(** ** Both reports: the shape of a table *)

(** X11. In the table of either strategy every row has as many cells as
    there are headers (three for [average], two for [user_agent]),
    whatever the records are. *)
Theorem rows_match_headers name strategy logs rows headers :
  get_report_strategy name = Some strategy ->
  generate strategy logs = Ok (rows, headers) ->
  Forall (fun row => List.length row = List.length headers) rows.
Proof.
  unfold get_report_strategy, strategies, lookup.
  destruct (String.eqb "average" name); [|destruct (String.eqb "user_agent" name)];
    intros [= <-]; cbn [generate AverageReport UserAgentReport].
  - intros G.
    destruct (@average_rows_spec logs (average_report_ready _ G)) as (rows' & G' & _ & M).
    rewrite G in G'. injection G' as -> ->.
    apply Forall_forall. intros row H. now apply M in H as (e & _ & ->).
  - unfold UserAgentReport_generate.
    destruct (fold_outcome logs user_agent_step []) as [d|]; cbn [obind]; [|discriminate].
    destruct (sorted item_lt d) as [items|]; cbn [obind]; [|discriminate].
    intros [= <- <-]. apply Forall_forall. intros row H.
    apply in_map_iff in H as ([ua n] & <- & _). reflexivity.
Qed.

Lemma rows_match_headers_witness :
  Forall (fun row => List.length row = List.length ["User-Agent"; "Count"])
         [[VStr "Chrome"; VInt 2]; [VStr "Firefox"; VInt 1]; [VStr "Safari"; VInt 1]].
Proof.
  apply (@rows_match_headers "user_agent" UserAgentReport Tests.sample_logs);
    vm_compute; reflexivity.
Defined.

(** ** The user-agent report: its counts, whatever the keys *)

Lemma item_total_counter_add ua d : item_total (counter_add ua d) = item_total d + 1.
Proof.
  induction d as [|[k n] d IH]; cbn [counter_add item_total fold_right snd]; [lia|].
  destruct (py_eq k ua); cbn [item_total fold_right snd].
  - fold (item_total d). lia.
  - fold (item_total (counter_add ua d)) (item_total d). lia.
Qed.

Lemma length_counter_add ua d :
  (List.length (counter_add ua d) <= S (List.length d))%nat.
Proof.
  induction d as [|[k n] d IH]; cbn [counter_add List.length]; [lia|].
  destruct (py_eq k ua); cbn [List.length]; lia.
Qed.

Lemma user_agent_fold_total logs :
  forall d d', fold_outcome logs user_agent_step d = Ok d' ->
               item_total d' = item_total d + Z.of_nat (List.length logs) /\
               (List.length d' <= List.length d + List.length logs)%nat.
Proof.
  induction logs as [|log logs IH]; intros d d'; cbn [fold_outcome List.length].
  - intros [= <-]. split; lia.
  - unfold user_agent_step at 1.
    destruct (user_agent_of log) as [ua|]; cbn [obind]; [|discriminate].
    destruct (hashable ua); cbn [obind]; [|discriminate].
    intros H. apply IH in H as [H1 H2].
    rewrite item_total_counter_add in H1.
    assert (L := length_counter_add ua d). split; lia.
Qed.

Lemma item_total_perm d d' : Permutation d d' -> item_total d = item_total d'.
Proof.
  induction 1 as [|x l l' _ IH|x y l|l l' l'' _ IH1 _ IH2];
    cbn [item_total fold_right]; try fold (item_total l) (item_total l'); lia.
Qed.

Lemma sum_counts_items items :
  sum_counts (map (fun '(ua, n) => [ua; VInt n]) items) = item_total items.
Proof.
  induction items as [|[ua n] items IH]; cbn [map sum_counts item_total fold_right]; trivial.
  fold (sum_counts (map (fun '(ua, n) => [ua; VInt n]) items)) (item_total items).
  cbn [count_column snd]. now rewrite IH.
Qed.

(** X12. Whatever the user agents are (strings or other values), the
    counts of a user-agent report add up to the number of records, and
    the report has no more rows than there are records. *)
Theorem user_agent_counts_add_up logs rows headers :
  UserAgentReport_generate logs = Ok (rows, headers) ->
  sum_counts rows = Z.of_nat (List.length logs) /\
  (List.length rows <= List.length logs)%nat.
Proof.
  unfold UserAgentReport_generate.
  destruct (fold_outcome logs user_agent_step []) as [d|] eqn:F; cbn [obind]; [|discriminate].
  destruct (sorted item_lt d) as [items|] eqn:S; cbn [obind]; [|discriminate].
  intros [= <- _]. apply user_agent_fold_total in F as [T L].
  apply sorted_perm in S.
  rewrite sum_counts_items, <- (item_total_perm S), length_map, <- (Permutation_length S).
  cbn [item_total fold_right List.length] in *. split; lia.
Qed.

Lemma user_agent_counts_add_up_witness :
  sum_counts [[VInt 9; VInt 1]; [VInt 10; VInt 2]] = Z.of_nat (List.length
    [VDict [("http_user_agent", VInt 10)]; VDict [("http_user_agent", VInt 9)];
     VDict [("http_user_agent", VFloat (F64.of_int 10))]]) /\
  (List.length [[VInt 9; VInt 1]; [VInt 10; VInt 2]] <= List.length
    [VDict [("http_user_agent", VInt 10)]; VDict [("http_user_agent", VInt 9)];
     VDict [("http_user_agent", VFloat (F64.of_int 10))]])%nat.
Proof.
  apply (@user_agent_counts_add_up _ _ ["User-Agent"; "Count"]).
  vm_compute. reflexivity.
Defined.

(** ** The user-agent report: when it fails *)

Lemma insert_sorted_raise_inv {A} (lt : A -> A -> outcome bool) x l e :
  insert_sorted lt x l = Raise e -> exists a b, lt a b = Raise e.
Proof.
  induction l as [|y l IH]; cbn [insert_sorted]; [discriminate|].
  destruct (lt y x) as [[|]|e'] eqn:L; cbn [obind].
  - destruct (insert_sorted lt x l); cbn [obind]; [discriminate|].
    intros [= <-]. now apply IH.
  - discriminate.
  - intros [= <-]. eauto.
Qed.

Lemma sorted_raise_inv {A} (lt : A -> A -> outcome bool) l e :
  sorted lt l = Raise e -> exists a b, lt a b = Raise e.
Proof.
  induction l as [|x l IH]; cbn [sorted]; [discriminate|].
  destruct (sorted lt l) as [r|e']; cbn [obind].
  - apply insert_sorted_raise_inv.
  - intros [= <-]. now apply IH.
Qed.

Lemma item_lt_error x y e : item_lt x y = Raise e -> e = TypeError.
Proof.
  unfold item_lt, py_lt. destruct (py_eq (fst x) (fst y)); [discriminate|].
  destruct (fst x), (fst y); cbn [is_number andb]; try discriminate; now intros [= <-].
Qed.

Lemma user_agent_raise_inv logs e :
  UserAgentReport_generate logs = Raise e ->
  (e = AttributeError /\ exists log, In log logs /\ is_mapping log = false) \/
  e = TypeError.
Proof.
  unfold UserAgentReport_generate.
  destruct (fold_outcome logs user_agent_step []) as [d|e'] eqn:F; cbn [obind].
  - destruct (sorted item_lt d) as [items|e'] eqn:S; cbn [obind]; [discriminate|].
    intros [= <-]. right. destruct (sorted_raise_inv _ _ S) as (a & b & H).
    eapply item_lt_error, H.
  - intros [= <-].
    destruct (fold_outcome_raise_inv _ _ _ F) as (before & log & after & d' & -> & _ & B).
    unfold user_agent_step, user_agent_of, get_default in B.
    destruct log; cbn [obind] in B;
      try (injection B as <-; left; split; trivial; eexists; split;
           [apply in_or_app; right; left; reflexivity | reflexivity]).
    destruct (dict_get "http_user_agent" d) as [ua|]; cbn [obind hashable] in B;
      [|discriminate].
    destruct (hashable ua); [discriminate|]. injection B as <-. now right.
Qed.

(** X13. A user-agent report fails in two ways only: with AttributeError
    when a record is no mapping, and with TypeError when a user agent is
    a list or an object, or when the user agents are of kinds that [<]
    does not order.  A record without the field is never an error (the
    average report raises KeyError for a field it misses). *)
Theorem user_agent_report_raises_only logs :
  match UserAgentReport_generate logs with
  | Ok _ => True
  | Raise e =>
      (e = AttributeError /\ exists log, In log logs /\ is_mapping log = false) \/
      e = TypeError
  end.
Proof.
  destruct (UserAgentReport_generate logs) as [r|e] eqn:G; trivial.
  now apply user_agent_raise_inv.
Qed.

(** ** The endpoint of a URL *)

Lemma split_head_query_and_fragment url :
  (normalize_url url ++ query_and_fragment url)%string = url.
Proof.
  unfold normalize_url.
  induction url as [|c r IH]; trivial.
  cbn [Str.split_head query_and_fragment].
  destruct (Ascii.eqb c "?") eqn:Q; cbn [orb Str.split_head String.append]; trivial.
  destruct (Ascii.eqb c "#") eqn:H; cbn [String.append]; trivial.
  now rewrite IH.
Qed.

Lemma split_head_commute a b s :
  Str.split_head a (Str.split_head b s) = Str.split_head b (Str.split_head a s).
Proof.
  induction s as [|c r IH]; trivial.
  cbn [Str.split_head].
  destruct (Ascii.eqb c b) eqn:B, (Ascii.eqb c a) eqn:A;
    cbn [Str.split_head]; rewrite ?A, ?B; trivial.
  now rewrite IH.
Qed.

(** X20. The endpoint of a URL is the URL without its part from the first
    [?] or [#] on, whichever comes first: the order of the two cuts in
    the code does not matter.  What is cut off is empty or starts with
    one of the two characters, and a URL is its own endpoint exactly
    when it has neither. *)
Theorem normalize_url_cuts_at_first_mark url :
  (normalize_url url ++ query_and_fragment url)%string = url /\
  normalize_url url = Str.split_head "?" (Str.split_head "#" url) /\
  (query_and_fragment url = EmptyString \/
   exists c rest, query_and_fragment url = String c rest /\ (c = "?" \/ c = "#")%char) /\
  (normalize_url url = url <-> Str.mem "?" url = false /\ Str.mem "#" url = false).
Proof.
  split; [apply split_head_query_and_fragment|].
  split; [apply split_head_commute|].
  split.
  - induction url as [|c r IH]; [now left|].
    cbn [query_and_fragment].
    destruct (Ascii.eqb c "?") eqn:Q; cbn [orb].
    + right. exists c, r. apply Ascii.eqb_eq in Q. auto.
    + destruct (Ascii.eqb c "#") eqn:H; trivial.
      right. exists c, r. apply Ascii.eqb_eq in H. auto.
  - split.
    + intros <-. apply normalize_url_clean.
    + intros [Q H]. unfold normalize_url.
      rewrite (split_head_fixed _ _ Q). now apply split_head_fixed.
Qed.

(** ** [main]: what a whole run does *)


Lemma parse_args_raise_inv argv e t :
  parse_args argv = (Raise e, t) -> e = SystemExit 2 /\ exists u, t = [EvUsage u].
Proof.
  unfold parse_args, argparse_error, ret.
  destruct (opt_report argv) as [r|].
  - destruct (existsb (String.eqb r) report_choices).
    + destruct (opt_file argv) as [[|p ps]|]; intros [= <- <-]; eauto.
    + intros [= <- <-]; eauto.
  - destruct (opt_file argv) as [[|p ps]|]; intros [= <- <-]; eauto.
Qed.


(** The statements of [main] with the branch of its guard left out. *)
Lemma run_resolved fs args strategy :
  get_report_strategy (report args) = Some strategy ->
  run fs args =
  match read_logs fs (file args) (date args) with
  | (Ok logs, t) =>
      match generate strategy logs with
      | Ok r => (Ok tt, t ++ [EvTable (fst r) (snd r)])
      | Raise e => (Raise e, t)
      end
  | (Raise e, t) => (Raise e, t)
  end.
Proof.
  intros G. unfold run, bind, lift, emit. rewrite G.
  destruct (read_logs fs (file args) (date args)) as [[logs|e] t]; trivial.
  destruct (generate strategy logs) as [r|e]; cbn; trivial.
  now rewrite app_nil_r.
Qed.

Lemma main_parsed fs argv args t :
  parse_args argv = (Ok args, t) ->
  exists strategy,
    get_report_strategy (report args) = Some strategy /\
    (strategy = AverageReport \/ strategy = UserAgentReport) /\
    main fs argv = run fs args.
Proof.
  intros P. destruct (@parse_args_checked _ _ _ P) as (-> & R & _).
  assert (M : main fs argv = run fs args).
  { unfold main, bind. rewrite P. now destruct (run fs args). }
  destruct R as [R|R]; rewrite R.
  - exists AverageReport. auto.
  - exists UserAgentReport. auto.
Qed.

(** X16. The guard of [main] against an unknown report type is never
    taken: for every command line [parse_args] accepts, the report name
    resolves to one of the two strategies, and the run is the reading,
    then that strategy's report, then the table. *)
Theorem main_guard_is_never_taken fs argv args t :
  parse_args argv = (Ok args, t) ->
  exists strategy,
    get_report_strategy (report args) = Some strategy /\
    main fs argv =
    match read_logs fs (file args) (date args) with
    | (Ok logs, t) =>
        match generate strategy logs with
        | Ok r => (Ok tt, t ++ [EvTable (fst r) (snd r)])
        | Raise e => (Raise e, t)
        end
    | (Raise e, t) => (Raise e, t)
    end.
Proof.
  intros P. destruct (@main_parsed fs _ _ _ P) as (strategy & G & _ & ->).
  exists strategy. split; trivial. now apply run_resolved.
Qed.

Lemma main_guard_is_never_taken_witness :
  exists strategy,
    get_report_strategy
      (report {| file := ["test.log"]; report := "user_agent"; date := None |}) =
    Some strategy /\
    main Tests.log_file
         {| opt_file := Some ["test.log"]; opt_report := Some "user_agent";
            opt_date := None |} =
    match read_logs Tests.log_file
            (file {| file := ["test.log"]; report := "user_agent"; date := None |})
            (date {| file := ["test.log"]; report := "user_agent"; date := None |}) with
    | (Ok logs, t) =>
        match generate strategy logs with
        | Ok r => (Ok tt, t ++ [EvTable (fst r) (snd r)])
        | Raise e => (Raise e, t)
        end
    | (Raise e, t) => (Raise e, t)
    end.
Proof.
  apply (@main_guard_is_never_taken Tests.log_file
           {| opt_file := Some ["test.log"]; opt_report := Some "user_agent";
              opt_date := None |}
           {| file := ["test.log"]; report := "user_agent"; date := None |} []).
  reflexivity.
Defined.

(** X17. A run prints the table exactly when it returns, once and as the
    last thing it does: the table is that of the chosen strategy for the
    records read.  A run that raises has printed no table. *)
Theorem table_is_printed_last fs argv :
  match main fs argv with
  | (Ok _, t) =>
      exists args strategy logs t0 rows headers,
        parse_args argv = (Ok args, []) /\
        get_report_strategy (report args) = Some strategy /\
        read_logs fs (file args) (date args) = (Ok logs, t0) /\
        generate strategy logs = Ok (rows, headers) /\
        t = t0 ++ [EvTable rows headers] /\ no_table t0
  | (Raise _, t) => no_table t
  end.
Proof.
  destruct (parse_args argv) as [[args|e] t0] eqn:P.
  - destruct (@main_parsed fs _ _ _ P) as (strategy & G & _ & ->).
    destruct (@parse_args_checked _ _ _ P) as (-> & _).
    rewrite (run_resolved fs _ G).
    assert (N := read_logs_no_table fs (file args) (date args)).
    destruct (read_logs fs (file args) (date args)) as [[logs|e] t] eqn:R; trivial.
    destruct (generate strategy logs) as [[rows headers]|e] eqn:E; trivial.
    exists args, strategy, logs, t, rows, headers. auto 7.
  - unfold main, bind. rewrite P.
    destruct (parse_args_raise_inv _ P) as (_ & u & ->).
    intros ev [<-|[]]. reflexivity.
Qed.


(** ** Both reports: the order of the records *)

Lemma row_lt_irrefl x : ~ row_lt x x.
Proof.
  unfold row_lt. destruct (first_column x); try tauto.
  now rewrite string_ltb_irrefl.
Qed.

Lemma row_lt_asym x y : row_lt x y -> ~ row_lt y x.
Proof.
  unfold row_lt. destruct (first_column x), (first_column y); try tauto.
  intros H. now rewrite (string_ltb_asym _ _ H).
Qed.

(** Rows in strictly ascending order are determined by their members. *)
Lemma sorted_rows_unique l :
  forall l', StronglySorted row_lt l -> StronglySorted row_lt l' ->
             (forall x, In x l <-> In x l') -> l = l'.
Proof.
  induction l as [|x l IH]; intros [|x' l'] S S' M; trivial.
  - destruct (proj2 (M x') (or_introl eq_refl)).
  - destruct (proj1 (M x) (or_introl eq_refl)).
  - apply StronglySorted_inv in S as [Sl Fx], S' as [Sl' Fx'].
    rewrite Forall_forall in Fx, Fx'.
    assert (x = x') as <-.
    { destruct (proj1 (M x) (or_introl eq_refl)) as [E|I]; [auto|].
      destruct (proj2 (M x') (or_introl eq_refl)) as [E|I']; [auto|].
      elim (@row_lt_asym _ _ (Fx _ I') (Fx' _ I)). }
    f_equal. apply IH; trivial. intros y; split; intros I.
    + destruct (proj1 (M y) (or_intror I)) as [<-|]; trivial.
      elim (@row_lt_irrefl _ (Fx _ I)).
    + destruct (proj2 (M y) (or_intror I)) as [<-|]; trivial.
      elim (@row_lt_irrefl _ (Fx' _ I)).
Qed.

Lemma user_agent_rows_spec logs :
  Forall (fun log => user_agent_ready log = true) logs ->
  exists rows,
    UserAgentReport_generate logs = Ok (rows, ["User-Agent"; "Count"]) /\
    StronglySorted row_lt rows /\
    (forall row, In row rows <->
       exists ua, In ua (user_agents logs) /\
                  row = [VStr ua;
                         VInt (Z.of_nat (count_occ string_dec (user_agents logs) ua))]).
Proof.
  intros R. destruct (@user_agent_report_shape logs R) as (c & rows & G & C & P & S).
  exists rows. split; [trivial|split; [trivial|]]. intros row. split.
  - intros I. apply (Permutation_in _ (Permutation_sym P)) in I.
    apply in_map_iff in I as ([k n] & <- & I).
    apply (@counts_for_items c logs k n C) in I as [I ->]. exists k. auto.
  - intros (ua & I & ->). apply (Permutation_in _ P).
    apply in_map_iff.
    exists (ua, Z.of_nat (count_occ string_dec (user_agents logs) ua)).
    split; trivial. apply (@counts_for_items c logs _ _ C). auto.
Qed.

Lemma user_agents_perm logs logs' :
  Permutation logs logs' -> Permutation (user_agents logs) (user_agents logs').
Proof. intros P. unfold user_agents. now apply Permutation_flat_map. Qed.

(** X14. For records whose [http_user_agent] is a string or is missing,
    the user-agent report does not depend on the order of the records:
    the same records in another order give the same table.  With user
    agents that are equal without being the same value ([10] and
    [10.0]), the one met first names the row, and the order shows. *)
Theorem user_agent_report_is_order_free logs logs' :
  Permutation logs logs' ->
  Forall (fun log => user_agent_ready log = true) logs ->
  UserAgentReport_generate logs' = UserAgentReport_generate logs /\
  UserAgentReport_generate
    [VDict [("http_user_agent", VInt 10)];
     VDict [("http_user_agent", VFloat (F64.of_int 10))]] <>
  UserAgentReport_generate
    [VDict [("http_user_agent", VFloat (F64.of_int 10))];
     VDict [("http_user_agent", VInt 10)]].
Proof.
  intros P R. split; [|discriminate].
  assert (R' : Forall (fun log => user_agent_ready log = true) logs')
    by exact (Permutation_Forall P R).
  destruct (user_agent_rows_spec R) as (rows & -> & S & M).
  destruct (user_agent_rows_spec R') as (rows' & -> & S' & M').
  f_equal. f_equal. apply sorted_rows_unique; trivial.
  assert (U := user_agents_perm P).
  intros row. rewrite M, M'. split; intros (ua & I & ->); exists ua.
  - split; [exact (Permutation_in _ (Permutation_sym U) I)|].
    now rewrite (proj1 (Permutation_count_occ string_dec _ _) U ua).
  - split; [exact (Permutation_in _ U I)|].
    now rewrite (proj1 (Permutation_count_occ string_dec _ _) U ua).
Qed.

Lemma user_agent_report_is_order_free_witness :
  UserAgentReport_generate
    [VDict [("http_user_agent", VStr "Chrome")]; VDict []] =
  UserAgentReport_generate
    [VDict []; VDict [("http_user_agent", VStr "Chrome")]] /\
  UserAgentReport_generate
    [VDict [("http_user_agent", VInt 10)];
     VDict [("http_user_agent", VFloat (F64.of_int 10))]] <>
  UserAgentReport_generate
    [VDict [("http_user_agent", VFloat (F64.of_int 10))];
     VDict [("http_user_agent", VInt 10)]].
Proof.
  apply (@user_agent_report_is_order_free
           [VDict []; VDict [("http_user_agent", VStr "Chrome")]]
           [VDict [("http_user_agent", VStr "Chrome")]; VDict []]).
  - apply perm_swap.
  - repeat constructor.
Defined.

Lemma first_two_sorted rows :
  StronglySorted row_lt rows -> StronglySorted row_lt (map (firstn 2) rows).
Proof.
  assert (F : forall x, first_column (firstn 2 x) = first_column x) by now intros [|? ?].
  induction 1 as [|x rows _ IH H]; cbn [map]; constructor; trivial.
  apply Forall_forall. intros y I. apply in_map_iff in I as (y' & <- & I).
  rewrite Forall_forall in H. unfold row_lt. rewrite !F. exact (H _ I).
Qed.

Lemma endpoints_perm logs logs' :
  Permutation logs logs' -> Permutation (endpoints logs) (endpoints logs').
Proof. intros P. unfold endpoints. now apply Permutation_flat_map. Qed.

Lemma times_of_perm e logs logs' :
  Permutation logs logs' -> Permutation (times_of e logs) (times_of e logs').
Proof. intros P. unfold times_of. now apply Permutation_flat_map. Qed.

Lemma average_first_two logs rows :
  StronglySorted row_lt rows ->
  (forall row, In row rows <->
     exists e, In e (endpoints logs) /\ row = row_of (e, stat_of e logs)) ->
  forall x, In x (map (firstn 2) rows) <->
            exists e, In e (endpoints logs) /\
                      x = [VStr e; VInt (Z.of_nat (List.length (times_of e logs)))].
Proof.
  intros _ M x. rewrite in_map_iff. split.
  - intros (row & <- & I). apply M in I as (e & I & ->). exists e. auto.
  - intros (e & I & ->). exists (row_of (e, stat_of e logs)). split; trivial.
    apply M. eauto.
Qed.

(** X15. For records the average report takes, the endpoints and the
    counts of the report do not depend on the order of the records.
    The average does: it is computed from a float sum taken in input
    order, and three times of which two cancel give 0.000 in one order
    and 0.333 in another. *)
Theorem average_counts_are_order_free logs logs' :
  Permutation logs logs' ->
  Forall (fun log => average_ready log = true) logs ->
  (exists rows rows',
     AverageReport_generate logs = Ok (rows, ["Endpoint"; "Count"; "Average Time"]) /\
     AverageReport_generate logs' = Ok (rows', ["Endpoint"; "Count"; "Average Time"]) /\
     map (firstn 2) rows' = map (firstn 2) rows) /\
  AverageReport_generate [Cancelling.big; Cancelling.one; Cancelling.minus_big] =
    Ok ([[VStr "/a"; VInt 3; VStr "0.000"]], ["Endpoint"; "Count"; "Average Time"]) /\
  AverageReport_generate [Cancelling.big; Cancelling.minus_big; Cancelling.one] =
    Ok ([[VStr "/a"; VInt 3; VStr "0.333"]], ["Endpoint"; "Count"; "Average Time"]).
Proof.
  intros P R. split; [|split; vm_compute; reflexivity].
  assert (R' : Forall (fun log => average_ready log = true) logs')
    by exact (Permutation_Forall P R).
  destruct (average_rows_spec R) as (rows & G & S & M).
  destruct (average_rows_spec R') as (rows' & G' & S' & M').
  exists rows, rows'. split; [trivial|split; [trivial|]].
  apply sorted_rows_unique; try now apply first_two_sorted.
  assert (E := endpoints_perm P).
  intros x. rewrite (average_first_two S' M'), (average_first_two S M).
  split; intros (e & I & ->); exists e.
  - split; [exact (Permutation_in _ (Permutation_sym E) I)|].
    now rewrite (Permutation_length (times_of_perm e P)).
  - split; [exact (Permutation_in _ E I)|].
    now rewrite (Permutation_length (times_of_perm e P)).
Qed.

Lemma average_counts_are_order_free_witness :
  (exists rows rows',
     AverageReport_generate [Cancelling.big; Cancelling.one; Cancelling.minus_big] =
       Ok (rows, ["Endpoint"; "Count"; "Average Time"]) /\
     AverageReport_generate [Cancelling.big; Cancelling.minus_big; Cancelling.one] =
       Ok (rows', ["Endpoint"; "Count"; "Average Time"]) /\
     map (firstn 2) rows' = map (firstn 2) rows) /\
  AverageReport_generate [Cancelling.big; Cancelling.one; Cancelling.minus_big] =
    Ok ([[VStr "/a"; VInt 3; VStr "0.000"]], ["Endpoint"; "Count"; "Average Time"]) /\
  AverageReport_generate [Cancelling.big; Cancelling.minus_big; Cancelling.one] =
    Ok ([[VStr "/a"; VInt 3; VStr "0.333"]], ["Endpoint"; "Count"; "Average Time"]).
Proof.
  apply (@average_counts_are_order_free
           [Cancelling.big; Cancelling.one; Cancelling.minus_big]
           [Cancelling.big; Cancelling.minus_big; Cancelling.one]).
  - apply perm_skip, perm_swap.
  - repeat constructor.
Defined.

(** ** The command line *)

